(** * Jellyfin media source: browse tree and stream resolution

    A shallow embedding of [homeassistant/components/jellyfin/media_source.py]
    and of the constants of [const.py] it uses.

    - Python exceptions are values of [exn]; a computation that may raise
      returns a [result].  The [await]ed executor jobs run one after the
      other, so they are plain calls in the error monad.
    - A Jellyfin item is a JSON object; [RemoteItem] is its typed view, one
      optional field per key the code reads.  An absent key is [None] and
      subscripting it raises [KeyError].
    - [ImageTags], the client's [config.data] and the query parameters of
      [user_items] are dictionaries from strings to strings: [gmap]s.
    - Strings are byte strings (UTF-8); byte-wise lexicographic order is the
      code point order Python's [str] comparison uses. *)

From Stdlib Require Import ZArith Sorting.Sorted Sorting.Permutation Strings.Ascii.
From stdpp Require Import gmap strings list fin_maps.

Open Scope string_scope.

(** ** Exceptions and the error monad *)

Inductive exn : Type :=
| BrowseError (msg : string)
| KeyError (key : string)
| IndexError
| ClientError (msg : string).

Inductive result (A : Type) : Type :=
| Ok (a : A)
| Err (e : exn).
Arguments Ok {A} a.
Arguments Err {A} e.

Definition bind {A B : Type} (r : result A) (k : A -> result B) : result B :=
  match r with
  | Ok a => k a
  | Err e => Err e
  end.

Notation "'let*' x ':=' r 'in' k" := (bind r (fun x => k))
  (at level 10, x name, r at level 100, k at level 200, only parsing).

(** [[f(x) for x in xs]] with an [f] that may raise: left to right, the first
    exception aborts the comprehension. *)
Fixpoint mapM {A B : Type} (f : A -> result B) (xs : list A) : result (list B) :=
  match xs with
  | [] => Ok []
  | x :: xs' =>
      let* y := f x in
      let* ys := mapM f xs' in
      Ok (y :: ys)
  end.

(** [d[key]] on a dictionary viewed as a record of optional fields. *)
Definition getitem {A : Type} (key : string) (field : option A) : result A :=
  match field with
  | Some v => Ok v
  | None => Err (KeyError key)
  end.

(** [d[key]] on a dictionary of strings. *)
Definition dict_get (d : gmap string string) (key : string) : result string :=
  getitem key (d !! key).

(** [xs[0]] *)
Definition index0 {A : Type} (xs : list A) : result A :=
  match xs with
  | x :: _ => Ok x
  | [] => Err IndexError
  end.

(** ** [sorted(xs, key=...)]

    The keys are computed first, one call per element and in order, so the
    first element without the key raises; the decorated list is then sorted
    stably.  Insertion from the right, placing an element before the first
    one whose key is not smaller, is a stable sort. *)

Section Sorted.
Context {A K : Type}.
Variable leb : K -> K -> bool.

Fixpoint insert_by (x : K * A) (l : list (K * A)) : list (K * A) :=
  match l with
  | [] => [x]
  | y :: l' => if leb (fst x) (fst y) then x :: y :: l' else y :: insert_by x l'
  end.

Fixpoint sort_by (l : list (K * A)) : list (K * A) :=
  match l with
  | [] => []
  | x :: l' => insert_by x (sort_by l')
  end.

Definition sorted (key : A -> result K) (xs : list A) : result (list A) :=
  let* decorated := mapM (fun x => let* k := key x in Ok (k, x)) xs in
  Ok (map snd (sort_by decorated)).

End Sorted.

(** ** Data model *)

(** One entry of [MediaSources]. *)
Record MediaSourceInfo : Type := {
  Path : option string
}.

Record RemoteItem : Type := {
  Id : option string;
  Name : option string;
  Type_ : option string;
  CollectionType : option string;
  IndexNumber : option Z;
  ImageTags : option (gmap string string);
  MediaType : option string;
  MediaSources : option (list MediaSourceInfo)
}.

(** The response of a listing call: [{"Items": [...]}]. *)
Record ItemsResponse : Type := {
  Items : option (list RemoteItem)
}.

(** The wrapped API client ([client.jellyfin]); every call may raise. *)
Record API : Type := {
  get_item : option string -> result RemoteItem;
  get_media_folders : result ItemsResponse;
  user_items : string -> gmap string string -> result ItemsResponse
}.

Record JellyfinClient : Type := {
  config_data : gmap string string;
  jellyfin : API
}.

(** [self]: the client and [self.url = jellyfin_url(client, "")]. *)
Record JellyfinSource : Type := {
  client : JellyfinClient;
  url : string
}.

Definition api (self : JellyfinSource) : API := jellyfin (client self).

(** A config entry, as far as the code reads it. *)
Record ConfigEntry : Type := {
  entry_id : string
}.

(** [hass]: the config entries of a domain, and [hass.data], which maps a
    domain to the data of its entries, themselves dictionaries. *)
Record HomeAssistant : Type := {
  async_entries : string -> list ConfigEntry;
  data : gmap string (gmap string (gmap string JellyfinClient))
}.

Module MediaSourceItem.
Record t : Type := { identifier : option string }.
End MediaSourceItem.

Module PlayMedia.
Record t : Type := { url : string; mime_type : string }.
End PlayMedia.

#[warnings="-register-all"]
Inductive BrowseMediaSource : Type := mkBrowseMediaSource {
  domain : string;
  identifier : option string;
  media_class : string;
  media_content_type : string;
  title : string;
  can_play : bool;
  can_expand : bool;
  children_media_class : option string;
  thumbnail : option string;
  children : option (list BrowseMediaSource)
}.

(** The two assignments of an expanding builder:
    [result.children_media_class = c; result.children = cs]. *)
Definition set_children (result : BrowseMediaSource) (c : string)
    (cs : list BrowseMediaSource) : BrowseMediaSource :=
  {| domain := domain result;
     identifier := identifier result;
     media_class := media_class result;
     media_content_type := media_content_type result;
     title := title result;
     can_play := can_play result;
     can_expand := can_expand result;
     children_media_class := Some c;
     thumbnail := thumbnail result;
     children := Some cs |}.

(** ** Constants *)

(** [const.py] *)
Definition DOMAIN : string := "jellyfin".
Definition DATA_CLIENT : string := "client".
Definition COLLECTION_TYPE_MOVIES : string := "movies".
Definition COLLECTION_TYPE_TVSHOWS : string := "tvshows".
Definition COLLECTION_TYPE_MUSIC : string := "music".
Definition SUPPORTED_COLLECTION_TYPES : list string :=
  [COLLECTION_TYPE_MOVIES; COLLECTION_TYPE_TVSHOWS].
Definition MAX_STREAMING_BITRATE : string := "140000000".

(** Modelled from the spec: the key constants [ITEM_KEY_*] and
    [MEDIA_SOURCE_KEY_PATH] and [MEDIA_TYPE_AUDIO], which [media_source.py]
    imports from [const.py] but whose definitions are missing there.  The
    data model names the fields consumed (Id, Name, CollectionType,
    IndexNumber, ImageTags, MediaType, MediaSources, Path) and the one
    supported media type, "Audio". *)
Definition ITEM_KEY_COLLECTION_TYPE : string := "CollectionType".
Definition ITEM_KEY_ID : string := "Id".
Definition ITEM_KEY_IMAGE_TAGS : string := "ImageTags".
Definition ITEM_KEY_INDEX_NUMBER : string := "IndexNumber".
Definition ITEM_KEY_MEDIA_SOURCES : string := "MediaSources".
Definition ITEM_KEY_MEDIA_TYPE : string := "MediaType".
Definition ITEM_KEY_NAME : string := "Name".
Definition MEDIA_SOURCE_KEY_PATH : string := "Path".
Definition MEDIA_TYPE_AUDIO : string := "Audio".

(** Modelled from the spec: the classification tags of
    [homeassistant.components.media_player.const] (directory, artist, album,
    track), which are not part of the sources. *)
Definition MEDIA_CLASS_DIRECTORY : string := "directory".
Definition MEDIA_CLASS_ARTIST : string := "artist".
Definition MEDIA_CLASS_ALBUM : string := "album".
Definition MEDIA_CLASS_TRACK : string := "track".

(** [JellyfinSource.name] *)
Definition name : string := "Jellyfin".

(** ** The MIME type guess of the standard library

    [mimetypes.guess_type] is not part of the sources.  The media source
    itself takes the guess as a parameter; to run it, and to say which paths
    have the extension ".mp3", this is [MimeTypes.guess_type] of CPython's
    [Lib/mimetypes.py] (3.8 to 3.12, [strict=True]) with [posixpath.splitext]
    and [urllib.parse._splittype].  The table of types is filled from the
    system's files when the module is first used, so it is an argument; the
    two small maps are the module's literals. *)

(** [s.find(c)] and [s.rfind(c)]; [None] stands for -1. *)
Fixpoint find_from (c : Ascii.ascii) (i : nat) (s : string) : option nat :=
  match s with
  | EmptyString => None
  | String a s' => if Ascii.eqb a c then Some i else find_from c (S i) s'
  end.

Fixpoint rfind_from (c : Ascii.ascii) (i : nat) (s : string) : option nat :=
  match s with
  | EmptyString => None
  | String a s' =>
      match rfind_from c (S i) s' with
      | Some j => Some j
      | None => if Ascii.eqb a c then Some i else None
      end
  end.

Definition find (c : Ascii.ascii) (s : string) : option nat := find_from c 0 s.
Definition rfind (c : Ascii.ascii) (s : string) : option nat := rfind_from c 0 s.

(** [s[:i]] and [s[i:]] *)
Definition slice_to (i : nat) (s : string) : string := String.substring 0 i s.
Definition slice_from (i : nat) (s : string) : string :=
  String.substring i (String.length s - i) s.

(** Some character of the name is no dot: the scan over the leading dots of
    [genericpath._splitext] finds where the file name starts. *)
Fixpoint has_non_dot (name : string) : bool :=
  match name with
  | EmptyString => false
  | String a name' => if Ascii.eqb a "."%char then has_non_dot name' else true
  end.

(** [posixpath.splitext]: the extension starts at the last dot of the last
    component, unless only dots come before it in that component. *)
Definition posixpath_splitext (p : string) : string * string :=
  match rfind "."%char p with
  | None => (p, "")
  | Some dotIndex =>
      let filenameIndex :=
        match rfind "/"%char p with
        | None => 0
        | Some sepIndex => S sepIndex
        end in
      if Nat.leb filenameIndex dotIndex
         && has_non_dot (String.substring filenameIndex (dotIndex - filenameIndex) p)
      then (slice_to dotIndex p, slice_from dotIndex p)
      else (p, "")
  end.

(** [str.lower], on the letters of ASCII. *)
Definition ascii_lower (a : Ascii.ascii) : Ascii.ascii :=
  let n := Ascii.N_of_ascii a in
  if (N.leb 65 n && N.leb n 90)%bool then Ascii.ascii_of_N (n + 32) else a.

Fixpoint lower (s : string) : string :=
  match s with
  | EmptyString => EmptyString
  | String a s' => String (ascii_lower a) (lower s')
  end.

(** Where a match of [[^/:]+:] at the start of the URL ends. *)
Fixpoint scheme_end (i : nat) (s : string) : option nat :=
  match s with
  | EmptyString => None
  | String a s' =>
      if Ascii.eqb a ":"%char then Some i
      else if Ascii.eqb a "/"%char then None
      else scheme_end (S i) s'
  end.

(** [urllib.parse._splittype]: [("scheme", rest)] for ["scheme:rest"]. *)
Definition _splittype (url : string) : option string * string :=
  match scheme_end 0 url with
  | Some (S i) => (Some (lower (slice_to (S i) url)), slice_from (S (S i)) url)
  | _ => (None, url)
  end.

Definition suffix_map : gmap string string :=
  {[ ".svgz" := ".svg.gz"; ".tgz" := ".tar.gz"; ".taz" := ".tar.gz";
     ".tz" := ".tar.gz"; ".tbz2" := ".tar.bz2"; ".txz" := ".tar.xz" ]}.

Definition encodings_map : gmap string string :=
  {[ ".gz" := "gzip"; ".Z" := "compress"; ".bz2" := "bzip2"; ".xz" := "xz";
     ".br" := "br" ]}.

(** [while ext in self.suffix_map]: every value of [suffix_map] ends in an
    extension that is no key, so the body runs at most once. *)
Fixpoint expand_suffix (fuel : nat) (base ext : string) : string * string :=
  match fuel with
  | 0 => (base, ext)
  | S fuel' =>
      match suffix_map !! ext with
      | Some long => let (base', ext') := posixpath_splitext (base ++ long) in
                     expand_suffix fuel' base' ext'
      | None => (base, ext)
      end
  end.

(** The type a [data:] URL names, "text/plain" when it names none. *)
Definition data_url_type (url : string) : option string :=
  match find ","%char url with
  | None => None
  | Some comma =>
      let type :=
        match find ";"%char (slice_to comma url) with
        | Some semi => slice_to semi url
        | None => slice_to comma url
        end in
      match find "="%char type, find "/"%char type with
      | None, Some _ => Some type
      | _, _ => Some "text/plain"
      end
  end.

(** [MimeTypes.guess_type(url)[0]] *)
Definition mimetypes_guess_type (types_map : gmap string string) (url : string)
  : option string :=
  let (scheme, url) := _splittype url in
  if bool_decide (scheme = Some "data") then data_url_type url
  else
    let (base, ext) := posixpath_splitext url in
    let (base, ext) := expand_suffix 2 base ext in
    let (base, ext) :=
      match encodings_map !! ext with
      | Some _ => posixpath_splitext base
      | None => (base, ext)
      end in
    match types_map !! ext with
    | Some type => Some type
    | None => types_map !! lower ext
    end.

(** ** Example data

    A small server used to run the code on concrete inputs. *)

Definition item (id name type : string) : RemoteItem :=
  {| Id := Some id; Name := Some name; Type_ := Some type;
     CollectionType := None; IndexNumber := None; ImageTags := Some ∅;
     MediaType := None; MediaSources := None |}.

Definition folder (id name collection_type : string) (tags : gmap string string)
  : RemoteItem :=
  {| Id := Some id; Name := Some name; Type_ := Some "CollectionFolder";
     CollectionType := Some collection_type; IndexNumber := None;
     ImageTags := Some tags; MediaType := None; MediaSources := None |}.

Definition media (id name media_type : string) (index : Z) (paths : list string)
  : RemoteItem :=
  {| Id := Some id; Name := Some name; Type_ := Some media_type;
     CollectionType := None; IndexNumber := Some index; ImageTags := Some ∅;
     MediaType := Some media_type;
     MediaSources := Some (map (fun p => {| Path := Some p |}) paths) |}.

Definition music_library : RemoteItem :=
  folder "lib-music" "Music" "music" {[ "Primary" := "f00d" ]}.
Definition movie_library : RemoteItem :=
  folder "lib-movies" "Movies" "movies" ∅.

Definition example_artists : list RemoteItem :=
  [ item "ar-2" "Nina Simone" "MusicArtist";
    item "ar-1" "Aretha Franklin" "MusicArtist";
    item "ar-3" "Otis Redding" "MusicArtist" ].

Definition example_album : RemoteItem :=
  {| Id := Some "al-1"; Name := Some "Pastel Blues"; Type_ := Some "MusicAlbum";
     CollectionType := None; IndexNumber := None;
     ImageTags := Some {[ "Primary" := "c0de" ]};
     MediaType := None; MediaSources := None |}.

Definition example_tracks : list RemoteItem :=
  [ media "tr-2" "Nobody Knows You" "Audio" 2 ["/music/pastel/02.mp3"];
    media "tr-3" "Sinnerman" "Audio" 3 ["/music/pastel/03.mp3"];
    media "tr-1" "Be My Husband" "Audio" 1 ["/music/pastel/01.mp3"] ].

Definition example_track : RemoteItem :=
  media "tr-1" "Be My Husband" "Audio" 1 ["/music/pastel/01.mp3"].
Definition example_video : RemoteItem :=
  media "mv-1" "Trailer" "Video" 1 ["/movies/trailer.mkv"].
Definition example_no_sources : RemoteItem :=
  media "tr-9" "Ghost" "Audio" 9 [].

(** [path.endswith(suffix)] *)
Definition ends_with (suffix path : string) : bool :=
  Nat.leb (String.length suffix) (String.length path)
  && String.eqb
       (String.substring (String.length path - String.length suffix) (String.length suffix) path)
       suffix.

(** A stand-in for the extension table of [mimetypes], with the entries the
    examples need. *)
Definition example_guess_type (path : string) : option string :=
  if ends_with ".mp3" path then Some "audio/mpeg"
  else if ends_with ".wav" path then Some "audio/x-wav"
  else None.

Fixpoint assoc {A : Type} (key : string) (table : list (string * A)) : option A :=
  match table with
  | [] => None
  | (k, v) :: table' => if String.eqb key k then Some v else assoc key table'
  end.

Definition example_get_item (id : option string) : result RemoteItem :=
  match id with
  | None => Err (ClientError "no item id")
  | Some id =>
      match assoc id [ ("lib-music", music_library); ("lib-movies", movie_library);
                       ("al-1", example_album); ("tr-1", example_track);
                       ("mv-1", example_video); ("tr-9", example_no_sources) ] with
      | Some it => Ok it
      | None => Err (ClientError "item not found")
      end
  end.

Definition example_user_items (handler : string) (params : gmap string string)
  : result ItemsResponse :=
  match params !! "ParentId", params !! "IncludeItemTypes" with
  | Some parent, Some type =>
      if String.eqb parent "lib-music" && String.eqb type "MusicArtist"
      then Ok {| Items := Some example_artists |}
      else if String.eqb parent "al-1" && String.eqb type "Audio"
      then Ok {| Items := Some example_tracks |}
      else Ok {| Items := Some [] |}
  | _, _ => Err (ClientError "bad query")
  end.

(** The example source, over a given list of media folders. *)
Definition example_source (folders : list RemoteItem) : JellyfinSource :=
  {| client :=
       {| config_data :=
            {[ "auth.token" := "s3cr3t"; "auth.user_id" := "u-7";
               "app.device_id" := "d-42" ]};
          jellyfin :=
            {| get_item := example_get_item;
               get_media_folders := Ok {| Items := Some folders |};
               user_items := example_user_items |} |};
     url := "http://jf.local:8096/" |}.

Definition request (id : string) : MediaSourceItem.t :=
  {| MediaSourceItem.identifier := Some id |}.
Definition root_request : MediaSourceItem.t :=
  {| MediaSourceItem.identifier := None |}.

(** A second server, given by its items and by the listing below each
    parent id. *)
Definition table_source (items : list (string * RemoteItem))
    (listings : list (string * list RemoteItem)) : JellyfinSource :=
  {| client :=
       {| config_data :=
            {[ "auth.token" := "s3cr3t"; "auth.user_id" := "u-7";
               "app.device_id" := "d-42" ]};
          jellyfin :=
            {| get_item := fun id =>
                 match id with
                 | None => Err (ClientError "no item id")
                 | Some id =>
                     match assoc id items with
                     | Some it => Ok it
                     | None => Err (ClientError "item not found")
                     end
                 end;
               get_media_folders := Ok {| Items := Some [] |};
               user_items := fun handler params =>
                 match params !! "ParentId" with
                 | Some parent => Ok {| Items := Some (default [] (assoc parent listings)) |}
                 | None => Err (ClientError "bad query")
                 end |} |};
     url := "http://jf.local:8096/" |}.

Definition track (id name : string) (index : option Z) (path : string) : RemoteItem :=
  {| Id := Some id; Name := Some name; Type_ := Some "Audio";
     CollectionType := None; IndexNumber := index; ImageTags := Some ∅;
     MediaType := Some "Audio"; MediaSources := Some [ {| Path := Some path |} ] |}.

Definition nina_simone : RemoteItem := item "ar-2" "Nina Simone" "MusicArtist".
Definition nina_simone_albums : list RemoteItem :=
  [ item "al-5" "Wild Is the Wind" "MusicAlbum";
    item "al-1" "Pastel Blues" "MusicAlbum" ].

(** An artist nobody has named, among named ones. *)
Definition unnamed_artist : RemoteItem :=
  {| Id := Some "ar-0"; Name := None; Type_ := Some "MusicArtist";
     CollectionType := None; IndexNumber := None; ImageTags := Some ∅;
     MediaType := None; MediaSources := None |}.

(** An item without image tags. *)
Definition untagged_album : RemoteItem :=
  {| Id := Some "al-0"; Name := Some "Bootleg"; Type_ := Some "MusicAlbum";
     CollectionType := None; IndexNumber := None; ImageTags := None;
     MediaType := None; MediaSources := None |}.

(** Tracks of which one has no index number. *)
Definition unnumbered_tracks : list RemoteItem :=
  [ track "tr-21" "Intro" (Some 1%Z) "/music/live/01.mp3";
    track "tr-22" "Encore" None "/music/live/encore.mp3" ].

(** Tracks of which one has a file type the table does not know. *)
Definition odd_track : RemoteItem :=
  track "tr-32" "Demo" (Some 2%Z) "/music/demo/02.xyz".
Definition odd_tracks : list RemoteItem :=
  [ track "tr-31" "Take One" (Some 1%Z) "/music/demo/01.mp3"; odd_track ].

(** A set of two discs: the index numbers start again on the second. *)
Definition two_disc_tracks : list RemoteItem :=
  [ track "d1-2" "Disc 1, second" (Some 2%Z) "/music/set/d1/02.mp3";
    track "d1-1" "Disc 1, first" (Some 1%Z) "/music/set/d1/01.mp3";
    track "d2-1" "Disc 2, first" (Some 1%Z) "/music/set/d2/01.mp3";
    track "d2-2" "Disc 2, second" (Some 2%Z) "/music/set/d2/02.mp3" ].

Definition second_source : JellyfinSource :=
  table_source
    [ ("ar-2", nina_simone); ("lib-2", folder "lib-2" "More Music" "music" ∅);
      ("al-2", item "al-2" "Live" "MusicAlbum");
      ("al-3", item "al-3" "Demos" "MusicAlbum");
      ("al-4", item "al-4" "The Set" "MusicAlbum");
      ("tr-32", odd_track); ("lib-3", item "lib-3" "Mixed" "CollectionFolder") ]
    [ ("ar-2", nina_simone_albums);
      ("lib-2", [ nina_simone; unnamed_artist ]);
      ("al-2", unnumbered_tracks); ("al-3", odd_tracks); ("al-4", two_disc_tracks) ].

(** Some entries of the table of types. *)
Definition example_types_map : gmap string string :=
  {[ ".mp3" := "audio/mpeg"; ".wav" := "audio/x-wav"; ".flac" := "audio/x-flac";
     ".tar" := "application/x-tar"; ".mkv" := "video/x-matroska" ]}.



Definition example_client : JellyfinClient := client (example_source []).

(** Two configured servers; the data of the first holds the example client. *)
Definition example_hass : HomeAssistant :=
  {| async_entries := fun domain =>
       if String.eqb domain "jellyfin"
       then [ {| entry_id := "e-1" |}; {| entry_id := "e-2" |} ]
       else [];
     data := {[ "jellyfin" := {[ "e-1" := {[ "client" := example_client ]} ]} ]} |}.

Definition unconfigured_hass : HomeAssistant :=
  {| async_entries := fun _ => []; data := ∅ |}.

Definition example_jellyfin_url (client : JellyfinClient) (handler : string) : string :=
  "http://jf.local:8096/" ++ handler.

(** ** The media source *)

Section MediaSource.

(** The item type tags and the empty content type are imported from
    [const.py] too, and neither the sources nor the specification give their
    values: they are parameters. *)
Variables ITEM_TYPE_LIBRARY ITEM_TYPE_ARTIST ITEM_TYPE_ALBUM ITEM_TYPE_AUDIO : string.
Variable MEDIA_TYPE_NONE : string.

(** [mimetypes.guess_type(path)[0]] of the Python standard library. *)
Variable guess_type : string -> option string.

Variable self : JellyfinSource.

(** [_media_mime_type] *)
Definition _media_mime_type (media_item : RemoteItem) : result string :=
  let* media_sources := getitem ITEM_KEY_MEDIA_SOURCES (MediaSources media_item) in
  let* media_source := index0 media_sources in
  let* path := getitem MEDIA_SOURCE_KEY_PATH (Path media_source) in
  match guess_type path with
  | Some mime_type => Ok mime_type
  | None => Err (BrowseError ("Unable to determine mime type for path " ++ path))
  end.

(** [JellyfinSource._get_audio_stream_url] *)
Definition _get_audio_stream_url (media_item : RemoteItem) : result string :=
  let* item_id := getitem ITEM_KEY_ID (Id media_item) in
  let* user_id := dict_get (config_data (client self)) "auth.user_id" in
  let* device_id := dict_get (config_data (client self)) "app.device_id" in
  let* api_key := dict_get (config_data (client self)) "auth.token" in
  Ok (url self ++ "Audio/" ++ item_id ++ "/universal?UserId=" ++ user_id
        ++ "&DeviceId=" ++ device_id ++ "&api_key=" ++ api_key
        ++ "&MaxStreamingBitrate=" ++ MAX_STREAMING_BITRATE).

(** [JellyfinSource._get_stream_url] *)
Definition _get_stream_url (media_item : RemoteItem) : result string :=
  let* media_type := getitem ITEM_KEY_MEDIA_TYPE (MediaType media_item) in
  if String.eqb media_type MEDIA_TYPE_AUDIO then _get_audio_stream_url media_item
  else Err (BrowseError ("Unsupported media type " ++ media_type)).

(** [JellyfinSource._get_thumbnail_url] *)
Definition _get_thumbnail_url (media_item : RemoteItem) : result (option string) :=
  let* item_id := getitem ITEM_KEY_ID (Id media_item) in
  let* image_tags := getitem ITEM_KEY_IMAGE_TAGS (ImageTags media_item) in
  let* api_key := dict_get (config_data (client self)) "auth.token" in
  match image_tags !! "Primary" with
  | Some tag =>
      Ok (Some (url self ++ "Items/" ++ item_id ++ "/Images/Primary?Tag=" ++ tag
                  ++ "&api_key=" ++ api_key))
  | None => Ok None
  end.

(** The query dictionary built by [JellyfinSource._get_children]. *)
Definition _get_children_params (parent_id item_type : string) : gmap string string :=
  let params : gmap string string :=
    {[ "Recursive" := "true"; "ParentId" := parent_id; "IncludeItemTypes" := item_type ]} in
  if String.eqb item_type ITEM_TYPE_AUDIO
  then <["Fields" := ITEM_KEY_MEDIA_SOURCES]> params
  else params.

(** [JellyfinSource._get_children] *)
Definition _get_children (parent_id item_type : string) : result (list RemoteItem) :=
  let* result := user_items (api self) "" (_get_children_params parent_id item_type) in
  getitem "Items" (Items result).

(** [JellyfinSource._build_track] *)
Definition _build_track (track : RemoteItem) : result BrowseMediaSource :=
  let* track_id := getitem ITEM_KEY_ID (Id track) in
  let* track_title := getitem ITEM_KEY_NAME (Name track) in
  let* mime_type := _media_mime_type track in
  let* thumbnail_url := _get_thumbnail_url track in
  Ok {| domain := DOMAIN;
        identifier := Some track_id;
        media_class := MEDIA_CLASS_TRACK;
        media_content_type := mime_type;
        title := track_title;
        can_play := true;
        can_expand := false;
        children_media_class := None;
        thumbnail := thumbnail_url;
        children := None |}.

(** [JellyfinSource._build_tracks] *)
Definition _build_tracks (album_id : string) : result (list BrowseMediaSource) :=
  let* tracks := _get_children album_id ITEM_TYPE_AUDIO in
  let* tracks := sorted Z.leb (fun k => getitem ITEM_KEY_INDEX_NUMBER (IndexNumber k)) tracks in
  mapM _build_track tracks.

(** [JellyfinSource._build_album] *)
Definition _build_album (album : RemoteItem) (include_children : bool)
  : result BrowseMediaSource :=
  let* album_id := getitem ITEM_KEY_ID (Id album) in
  let* album_title := getitem ITEM_KEY_NAME (Name album) in
  let* thumbnail_url := _get_thumbnail_url album in
  let result :=
    {| domain := DOMAIN;
       identifier := Some album_id;
       media_class := MEDIA_CLASS_ALBUM;
       media_content_type := MEDIA_TYPE_NONE;
       title := album_title;
       can_play := false;
       can_expand := true;
       children_media_class := None;
       thumbnail := thumbnail_url;
       children := None |} in
  if include_children then
    let* tracks := _build_tracks album_id in
    Ok (set_children result MEDIA_CLASS_TRACK tracks)
  else Ok result.

(** [JellyfinSource._build_albums] *)
Definition _build_albums (artist_id : string) : result (list BrowseMediaSource) :=
  let* albums := _get_children artist_id ITEM_TYPE_ALBUM in
  let* albums := sorted String.leb (fun k => getitem ITEM_KEY_NAME (Name k)) albums in
  mapM (fun album => _build_album album false) albums.

(** [JellyfinSource._build_artist] *)
Definition _build_artist (artist : RemoteItem) (include_children : bool)
  : result BrowseMediaSource :=
  let* artist_id := getitem ITEM_KEY_ID (Id artist) in
  let* artist_name := getitem ITEM_KEY_NAME (Name artist) in
  let* thumbnail_url := _get_thumbnail_url artist in
  let result :=
    {| domain := DOMAIN;
       identifier := Some artist_id;
       media_class := MEDIA_CLASS_ARTIST;
       media_content_type := MEDIA_TYPE_NONE;
       title := artist_name;
       can_play := false;
       can_expand := true;
       children_media_class := None;
       thumbnail := thumbnail_url;
       children := None |} in
  if include_children then
    let* albums := _build_albums artist_id in
    Ok (set_children result MEDIA_CLASS_ALBUM albums)
  else Ok result.

(** [JellyfinSource._build_artists] *)
Definition _build_artists (library_id : string) : result (list BrowseMediaSource) :=
  let* artists := _get_children library_id ITEM_TYPE_ARTIST in
  let* artists := sorted String.leb (fun k => getitem ITEM_KEY_NAME (Name k)) artists in
  mapM (fun artist => _build_artist artist false) artists.

(** [JellyfinSource._build_music_library] *)
Definition _build_music_library (library : RemoteItem) (include_children : bool)
  : result BrowseMediaSource :=
  let* library_id := getitem ITEM_KEY_ID (Id library) in
  let* library_name := getitem ITEM_KEY_NAME (Name library) in
  let result :=
    {| domain := DOMAIN;
       identifier := Some library_id;
       media_class := MEDIA_CLASS_DIRECTORY;
       media_content_type := MEDIA_TYPE_NONE;
       title := library_name;
       can_play := false;
       can_expand := true;
       children_media_class := None;
       thumbnail := None;
       children := None |} in
  if include_children then
    let* artists := _build_artists library_id in
    Ok (set_children result MEDIA_CLASS_ARTIST artists)
  else Ok result.

(** [JellyfinSource._build_library] *)
Definition _build_library (library : RemoteItem) (include_children : bool)
  : result BrowseMediaSource :=
  let* collection_type := getitem ITEM_KEY_COLLECTION_TYPE (CollectionType library) in
  if String.eqb collection_type COLLECTION_TYPE_MUSIC
  then _build_music_library library include_children
  else Err (BrowseError ("Unsupported collection type " ++ collection_type)).

(** The test of the loop of [_get_libraries]: the key is present and its
    value is in [SUPPORTED_COLLECTION_TYPES]. *)
Definition supported_library (library : RemoteItem) : bool :=
  match CollectionType library with
  | Some collection_type =>
      existsb (String.eqb collection_type) SUPPORTED_COLLECTION_TYPES
  | None => false
  end.

(** [JellyfinSource._get_libraries] *)
Definition _get_libraries : result (list RemoteItem) :=
  let* response := get_media_folders (api self) in
  let* libraries := getitem "Items" (Items response) in
  Ok (List.filter supported_library libraries).

(** [JellyfinSource._build_libraries]; [base.children] is filled by the loop
    before [base] is returned. *)
Definition _build_libraries : result BrowseMediaSource :=
  let* libraries := _get_libraries in
  let* children := mapM (fun library => _build_library library false) libraries in
  Ok {| domain := DOMAIN;
        identifier := None;
        media_class := MEDIA_CLASS_DIRECTORY;
        media_content_type := MEDIA_TYPE_NONE;
        title := name;
        can_play := false;
        can_expand := true;
        children_media_class := Some MEDIA_CLASS_DIRECTORY;
        thumbnail := None;
        children := Some children |}.

(** [not item.identifier]: [None] and the empty string are falsy. *)
Definition falsy (identifier : option string) : bool :=
  match identifier with
  | None => true
  | Some s => String.eqb s ""
  end.

(** [JellyfinSource.async_browse_media] *)
Definition async_browse_media (item : MediaSourceItem.t) (media_types : list string)
  : result BrowseMediaSource :=
  if falsy (MediaSourceItem.identifier item) then _build_libraries
  else
    let* media_item := get_item (api self) (MediaSourceItem.identifier item) in
    let* item_type := getitem "Type" (Type_ media_item) in
    if String.eqb item_type ITEM_TYPE_LIBRARY then _build_library media_item true
    else if String.eqb item_type ITEM_TYPE_ARTIST then _build_artist media_item true
    else if String.eqb item_type ITEM_TYPE_ALBUM then _build_album media_item true
    else Err (BrowseError ("Unsupported item type " ++ item_type)).

(** [JellyfinSource.async_resolve_media] *)
Definition async_resolve_media (item : MediaSourceItem.t) : result PlayMedia.t :=
  let* media_item := get_item (api self) (MediaSourceItem.identifier item) in
  let* stream_url := _get_stream_url media_item in
  let* mime_type := _media_mime_type media_item in
  Ok {| PlayMedia.url := stream_url; PlayMedia.mime_type := mime_type |}.

(** [jellyfin_url] of the API client library. *)
Variable jellyfin_url : JellyfinClient -> string -> string.

(** [JellyfinSource.__init__]: [self.url = jellyfin_url(client, "")]. *)
Definition JellyfinSource__init__ (client : JellyfinClient) : JellyfinSource :=
  {| client := client; url := jellyfin_url client "" |}.

(** [async_get_media_source] *)
Definition async_get_media_source (hass : HomeAssistant) : result JellyfinSource :=
  let* entry := index0 (async_entries hass DOMAIN) in
  let* domain_data := getitem DOMAIN (data hass !! DOMAIN) in
  let* data := getitem (entry_id entry) (domain_data !! entry_id entry) in
  let* client := getitem DATA_CLIENT (data !! DATA_CLIENT) in
  Ok (JellyfinSource__init__ client).

(** ** Specification vocabulary *)

(** The error kinds of the specification are [BrowseError]s told apart by
    their message; each carries the offending value. *)
Definition UnsupportedItemType (item_type : string) : exn :=
  BrowseError ("Unsupported item type " ++ item_type).
Definition UnsupportedCollectionType (collection_type : string) : exn :=
  BrowseError ("Unsupported collection type " ++ collection_type).
Definition UnsupportedMediaType (media_type : string) : exn :=
  BrowseError ("Unsupported media type " ++ media_type).
Definition MimeTypeUndetermined (path : string) : exn :=
  BrowseError ("Unable to determine mime type for path " ++ path).

(** Non-decreasing order of the track sort key. *)
Definition index_le (a b : RemoteItem) : Prop :=
  match IndexNumber a, IndexNumber b with
  | Some i, Some j => (i <= j)%Z
  | _, _ => False
  end.

(** The keys an artist or album builder subscripts. *)
Definition has_node_keys (it : RemoteItem) : Prop :=
  is_Some (Id it) /\ is_Some (Name it) /\ is_Some (ImageTags it).

(** What [_build_track] needs of a track: the node keys, the sort key, and
    a first media source whose path the table can guess. *)
Definition playable_track (track : RemoteItem) : Prop :=
  has_node_keys track
  /\ is_Some (IndexNumber track)
  /\ exists source rest path mime,
       MediaSources track = Some (source :: rest)
       /\ Path source = Some path
       /\ guess_type path = Some mime.

(** A child node stands for an item: same id, and the name as title. *)
Definition node_of (it : RemoteItem) (n : BrowseMediaSource) : Prop :=
  Id it = identifier n /\ Name it = Some (title n).

Definition title_le (n n' : BrowseMediaSource) : Prop :=
  String.leb (title n) (title n') = true.

(** Playability and expandability go by classification: a track is a
    playable leaf, every other node is expandable and not playable. *)
Definition node_ok (n : BrowseMediaSource) : bool :=
  xorb (can_play n) (can_expand n)
  && (if String.eqb (media_class n) MEDIA_CLASS_TRACK
      then can_play n && negb (can_expand n)
      else existsb (String.eqb (media_class n))
             [MEDIA_CLASS_DIRECTORY; MEDIA_CLASS_ARTIST; MEDIA_CLASS_ALBUM]
           && negb (can_play n) && can_expand n).

(** [P] holds of a node and of all its descendants. *)
Fixpoint tree_forall (P : BrowseMediaSource -> bool) (n : BrowseMediaSource) : bool :=
  P n &&
  match n with
  | mkBrowseMediaSource _ _ _ _ _ _ _ _ _ (Some cs) => forallb (tree_forall P) cs
  | _ => true
  end.

(** The classification a node announces for its children: the root lists
    directories, a library artists, an artist albums, an album tracks. *)
Definition child_class (n : BrowseMediaSource) : string :=
  match identifier n with
  | None => MEDIA_CLASS_DIRECTORY
  | Some _ =>
      if String.eqb (media_class n) MEDIA_CLASS_DIRECTORY then MEDIA_CLASS_ARTIST
      else if String.eqb (media_class n) MEDIA_CLASS_ARTIST then MEDIA_CLASS_ALBUM
      else MEDIA_CLASS_TRACK
  end.

(** A node built without its children. *)
Definition summary (n : BrowseMediaSource) : Prop :=
  children n = None /\ children_media_class n = None.

(** The tracks with a given index number. *)
Definition index_is (i : Z) (track : RemoteItem) : bool :=
  match IndexNumber track with
  | Some j => Z.eqb i j
  | None => false
  end.

(** What [_build_track] subscripts before it guesses the MIME type. *)
Definition sourced_track (track : RemoteItem) : Prop :=
  has_node_keys track
  /\ is_Some (IndexNumber track)
  /\ exists source rest path,
       MediaSources track = Some (source :: rest) /\ Path source = Some path.

(** The path of the first media source. *)
Definition first_path (track : RemoteItem) : option string :=
  match MediaSources track with
  | Some (source :: _) => Path source
  | _ => None
  end.

(** The root node of a listing without libraries. *)
Definition empty_root (content_type : string) : BrowseMediaSource :=
  {| domain := DOMAIN;
     identifier := None;
     media_class := MEDIA_CLASS_DIRECTORY;
     media_content_type := content_type;
     title := name;
     can_play := false;
     can_expand := true;
     children_media_class := Some MEDIA_CLASS_DIRECTORY;
     thumbnail := None;
     children := Some [] |}.

(** What every node built from an item has: the domain, the id of the item
    as identifier, its classification, and no children unless asked for. *)
Definition built (class : string) (it : RemoteItem) (n : BrowseMediaSource) : Prop :=
  domain n = DOMAIN /\ identifier n = Id it /\ is_Some (identifier n)
  /\ media_class n = class.

(** * Properties *)

(** ** The error monad *)

Lemma bind_Ok {A B : Type} (r : result A) (k : A -> result B) (b : B) :
  bind r k = Ok b -> exists a, r = Ok a /\ k a = Ok b.
Proof. destruct r as [a|e]; simpl; [eauto | discriminate]. Qed.

Lemma getitem_Some {A : Type} (key : string) (field : option A) (v : A) :
  field = Some v -> getitem key field = Ok v.
Proof. now intros ->. Qed.

Lemma getitem_Ok {A : Type} (key : string) (field : option A) (v : A) :
  getitem key field = Ok v -> field = Some v.
Proof. destruct field; simpl; congruence. Qed.

Lemma dict_get_Some (d : gmap string string) (key v : string) :
  d !! key = Some v -> dict_get d key = Ok v.
Proof. unfold dict_get. now intros ->. Qed.

(** Splits every successful [bind] of the context into its two steps. *)
Ltac inv_bind :=
  repeat match goal with
  | H : bind _ _ = Ok _ |- _ =>
      let a := fresh "a" in
      let Ha := fresh "Ha" in
      apply bind_Ok in H; destruct H as (a & Ha & H)
  | H : Ok _ = Ok _ |- _ => injection H as H
  | H : Err _ = Ok _ |- _ => discriminate H
  | H : (if ?b then _ else _) = Ok _ |- _ => destruct b eqn:?
  end.

Lemma mapM_Forall2 {A B : Type} (f : A -> result B) (xs : list A) (ys : list B) :
  mapM f xs = Ok ys -> Forall2 (fun x y => f x = Ok y) xs ys.
Proof.
  revert ys. induction xs as [|x xs IH]; simpl; intros ys H.
  - injection H as <-. constructor.
  - inv_bind. subst ys. constructor; auto.
Qed.

Lemma mapM_total {A B : Type} (f : A -> result B) (g : A -> B) (xs : list A) :
  Forall (fun x => f x = Ok (g x)) xs -> mapM f xs = Ok (map g xs).
Proof.
  induction 1 as [|x xs Hx _ IH]; simpl; [reflexivity|].
  now rewrite Hx, IH.
Qed.

(** ** [sorted] returns an ordered rearrangement *)

Section SortedProperties.
Context {A K : Type}.
Variable leb : K -> K -> bool.
Hypothesis leb_total : forall a b, leb a b = true \/ leb b a = true.

Let key_le (p q : K * A) : Prop := leb (fst p) (fst q) = true.

Lemma insert_by_Permutation (x : K * A) (l : list (K * A)) :
  Permutation (x :: l) (insert_by leb x l).
Proof.
  induction l as [|y l IH]; simpl; [reflexivity|].
  destruct (leb (fst x) (fst y)); [reflexivity|].
  rewrite perm_swap. now apply perm_skip.
Qed.

Lemma sort_by_Permutation (l : list (K * A)) : Permutation l (sort_by leb l).
Proof.
  induction l as [|x l IH]; simpl; [reflexivity|].
  rewrite <- insert_by_Permutation. now apply perm_skip.
Qed.

Lemma insert_by_HdRel (x y : K * A) (l : list (K * A)) :
  key_le y x -> HdRel key_le y l -> HdRel key_le y (insert_by leb x l).
Proof.
  intros Hyx Hl. destruct l as [|z l]; simpl.
  - now constructor.
  - destruct (leb (fst x) (fst z)); constructor; [assumption|].
    now inversion Hl.
Qed.

Lemma insert_by_Sorted (x : K * A) (l : list (K * A)) :
  Sorted key_le l -> Sorted key_le (insert_by leb x l).
Proof.
  induction 1 as [|y l Hl IH Hy]; simpl.
  - repeat constructor.
  - destruct (leb (fst x) (fst y)) eqn:Hxy.
    + repeat constructor; assumption.
    + constructor; [assumption|].
      apply insert_by_HdRel; [|assumption].
      destruct (leb_total (fst x) (fst y)) as [H|H]; [congruence | exact H].
Qed.

Lemma sort_by_Sorted (l : list (K * A)) : Sorted key_le (sort_by leb l).
Proof.
  induction l as [|x l IH]; simpl; [constructor|].
  now apply insert_by_Sorted.
Qed.

(** Undecorating keeps the order, when each key is the key of its element. *)
Lemma undecorate_Sorted (k : A -> K) (l : list (K * A)) :
  Forall (fun p => fst p = k (snd p)) l ->
  Sorted key_le l ->
  Sorted (fun a b => leb (k a) (k b) = true) (map snd l).
Proof.
  intros Hk Hs. induction Hs as [|p l Hl IH Hp]; simpl; [constructor|].
  inversion Hk as [|? ? Hkp Hkl]; subst.
  constructor; [now apply IH|].
  destruct Hp as [|q l' Hpq]; simpl; constructor.
  inversion Hkl as [|? ? Hkq _]; subst.
  unfold key_le in Hpq. now rewrite Hkp, Hkq in Hpq.
Qed.

(** With every key present, [sorted] succeeds with a rearrangement of its
    argument in non-decreasing key order. *)
Lemma sorted_Ok (key : A -> result K) (k : A -> K) (xs : list A) :
  Forall (fun x => key x = Ok (k x)) xs ->
  exists ys, sorted leb key xs = Ok ys
    /\ Permutation xs ys
    /\ Sorted (fun a b => leb (k a) (k b) = true) ys.
Proof.
  intros Hkey. unfold sorted.
  rewrite (mapM_total _ (fun x => (k x, x))).
  2:{ eapply List.Forall_impl; [|exact Hkey]. simpl. now intros x ->. }
  simpl. eexists; split; [reflexivity|]. split.
  - rewrite <- sort_by_Permutation, map_map. simpl. now rewrite map_id.
  - apply undecorate_Sorted; [|apply sort_by_Sorted].
    rewrite <- sort_by_Permutation.
    apply List.Forall_forall. intros p Hp. apply List.in_map_iff in Hp.
    now destruct Hp as (x & <- & _).
Qed.

(** The first element without a key makes [sorted] raise what the key
    lookup raised. *)
Lemma sorted_Err (key : A -> result K) (xs : list A) (x : A) (e : exn) :
  hd_error xs = Some x -> key x = Err e -> sorted leb key xs = Err e.
Proof.
  destruct xs as [|x' xs]; simpl; [discriminate|].
  intros [= ->] He. unfold sorted. simpl. now rewrite He.
Qed.

End SortedProperties.

Lemma mapM_Forall2_total {A B : Type} (f : A -> result B) (Q : A -> B -> Prop)
    (xs : list A) :
  Forall (fun x => exists y, f x = Ok y /\ Q x y) xs ->
  exists ys, mapM f xs = Ok ys /\ Forall2 Q xs ys.
Proof.
  induction 1 as [|x xs (y & Hy & HQ) _ (ys & Hys & HF)]; simpl.
  - exists []. split; [reflexivity | constructor].
  - exists (y :: ys). rewrite Hy, Hys. split; [reflexivity | now constructor].
Qed.

(** An order on the items carries over to the nodes built from them. *)
Lemma Sorted_Forall2 {A B : Type} (R : A -> A -> Prop) (S : B -> B -> Prop)
    (Q : A -> B -> Prop) (xs : list A) (ys : list B) :
  (forall a a' b b', Q a b -> Q a' b' -> R a a' -> S b b') ->
  Forall2 Q xs ys -> Sorted R xs -> Sorted S ys.
Proof.
  intros HRS HQ. induction HQ as [|x y xs ys Hxy Hrest IH]; intros Hs.
  - constructor.
  - inversion Hs as [|? ? Hs' Hhd]; subst. constructor; [now apply IH|].
    destruct Hrest as [|x' y' xs' ys' Hxy' _]; constructor.
    inversion Hhd; subst. eapply HRS; eassumption.
Qed.

(** Both sort orders are transitive, so a list ordered pair by pair is
    ordered throughout. *)
Lemma title_le_StronglySorted (ns : list BrowseMediaSource) :
  Sorted title_le ns -> StronglySorted title_le ns.
Proof.
  apply Sorted_StronglySorted. intros a b c Hab Hbc. unfold title_le in *.
  apply Is_true_true. apply Is_true_true in Hab, Hbc.
  exact (transitivity (R := String.le) Hab Hbc).
Qed.

Lemma index_le_StronglySorted (items : list RemoteItem) :
  Sorted index_le items -> StronglySorted index_le items.
Proof.
  apply Sorted_StronglySorted. intros a b c. unfold index_le.
  destruct (IndexNumber a), (IndexNumber b), (IndexNumber c); try tauto. lia.
Qed.

(** ** Resolving a stream *)

Lemma _get_stream_url_audio (media_item : RemoteItem) :
  MediaType media_item = Some MEDIA_TYPE_AUDIO ->
  _get_stream_url media_item = _get_audio_stream_url media_item.
Proof. unfold _get_stream_url. now intros ->. Qed.

Lemma _get_stream_url_unsupported (media_item : RemoteItem) (media_type : string) :
  MediaType media_item = Some media_type ->
  media_type <> MEDIA_TYPE_AUDIO ->
  _get_stream_url media_item = Err (UnsupportedMediaType media_type).
Proof.
  unfold _get_stream_url. intros -> Hne. simpl.
  apply String.eqb_neq in Hne. now rewrite Hne.
Qed.

(** A failed guess raises [MimeTypeUndetermined] with the path. *)
Lemma _media_mime_type_guess_failed (media_item : RemoteItem)
    (source : MediaSourceInfo) (rest : list MediaSourceInfo) (path : string) :
  MediaSources media_item = Some (source :: rest) ->
  Path source = Some path ->
  guess_type path = None ->
  _media_mime_type media_item = Err (MimeTypeUndetermined path).
Proof.
  unfold _media_mime_type. intros Hs Hp Hg.
  rewrite Hs. simpl. rewrite Hp. simpl. now rewrite Hg.
Qed.

Lemma _media_mime_type_guessed (media_item : RemoteItem)
    (source : MediaSourceInfo) (rest : list MediaSourceInfo) (path mime : string) :
  MediaSources media_item = Some (source :: rest) ->
  Path source = Some path ->
  guess_type path = Some mime ->
  _media_mime_type media_item = Ok mime.
Proof.
  unfold _media_mime_type. intros Hs Hp Hg.
  rewrite Hs. simpl. rewrite Hp. simpl. now rewrite Hg.
Qed.

(** [_media_mime_type] raises a [BrowseError] only for a first media source
    whose path the table cannot guess. *)
Lemma _media_mime_type_BrowseError (media_item : RemoteItem) (msg : string) :
  _media_mime_type media_item = Err (BrowseError msg) ->
  exists source rest path,
    MediaSources media_item = Some (source :: rest)
    /\ Path source = Some path
    /\ guess_type path = None
    /\ BrowseError msg = MimeTypeUndetermined path.
Proof.
  unfold _media_mime_type.
  destruct (MediaSources media_item) as [[|source rest]|]; simpl; try discriminate.
  destruct (Path source) as [path|] eqn:Hp; simpl; [|discriminate].
  destruct (guess_type path) eqn:Hg; [discriminate|].
  intros [= <-]. now exists source, rest, path.
Qed.

(** C2, as amended.  An empty media-sources list makes the mime-type
    determination raise [IndexError] from the unchecked subscript [[0]]; the
    error is not converted.  Resolving such an item raises that [IndexError]
    once the stream URL has been built, and what the stream URL step raised
    otherwise. *)
Theorem empty_media_sources_raise_IndexError (media_item : RemoteItem) :
  MediaSources media_item = Some [] ->
  _media_mime_type media_item = Err IndexError
  /\ forall item : MediaSourceItem.t,
       get_item (api self) (MediaSourceItem.identifier item) = Ok media_item ->
       async_resolve_media item =
         match _get_stream_url media_item with
         | Ok _ => Err IndexError
         | Err e => Err e
         end.
Proof.
  intros Hempty.
  assert (Hmime : _media_mime_type media_item = Err IndexError).
  { unfold _media_mime_type. now rewrite Hempty. }
  split; [exact Hmime|].
  intros item Hget. unfold async_resolve_media. rewrite Hget. simpl.
  destruct (_get_stream_url media_item); simpl; [now rewrite Hmime | reflexivity].
Qed.


(** C6.  Resolving an item whose MediaType is not "Audio" fails with
    [UnsupportedMediaType] carrying that media type; no stream URL is
    returned. *)
Theorem resolve_unsupported_media_type (item : MediaSourceItem.t)
    (media_item : RemoteItem) (media_type : string) :
  get_item (api self) (MediaSourceItem.identifier item) = Ok media_item ->
  MediaType media_item = Some media_type ->
  media_type <> "Audio" ->
  async_resolve_media item = Err (UnsupportedMediaType media_type).
Proof.
  intros Hget Hmt Hne. unfold async_resolve_media. rewrite Hget. simpl.
  now rewrite (_get_stream_url_unsupported _ _ Hmt Hne).
Qed.

(** ** Thumbnails *)

Lemma _get_thumbnail_url_Ok (media_item : RemoteItem) (item_id api_key : string)
    (image_tags : gmap string string) :
  Id media_item = Some item_id ->
  ImageTags media_item = Some image_tags ->
  config_data (client self) !! "auth.token" = Some api_key ->
  _get_thumbnail_url media_item =
    Ok ((fun tag => url self ++ "Items/" ++ item_id ++ "/Images/Primary?Tag=" ++ tag
                      ++ "&api_key=" ++ api_key) <$> image_tags !! "Primary").
Proof.
  intros Hid Htags Hkey. unfold _get_thumbnail_url.
  rewrite Hid, Htags, (dict_get_Some _ _ _ Hkey). simpl.
  now destruct (image_tags !! "Primary").
Qed.

(** C8, as amended.  For an item with an id and an ImageTags mapping, the
    thumbnail URL is computed without error; it is present if and only if
    ImageTags has a "Primary" entry, and is then
    [{url}Items/{Id}/Images/Primary?Tag={tag}&api_key={token}].  The artist,
    album and track nodes built from the item carry exactly this thumbnail;
    a library node carries none. *)
Theorem thumbnail_iff_primary_tag (media_item : RemoteItem) (item_id api_key : string)
    (image_tags : gmap string string) :
  Id media_item = Some item_id ->
  ImageTags media_item = Some image_tags ->
  config_data (client self) !! "auth.token" = Some api_key ->
  exists thumb : option string,
    _get_thumbnail_url media_item = Ok thumb
    /\ (is_Some thumb <-> is_Some (image_tags !! "Primary"))
    /\ (forall tag, image_tags !! "Primary" = Some tag ->
          thumb = Some (url self ++ "Items/" ++ item_id ++ "/Images/Primary?Tag=" ++ tag
                          ++ "&api_key=" ++ api_key))
    /\ (forall b n, _build_artist media_item b = Ok n -> thumbnail n = thumb)
    /\ (forall b n, _build_album media_item b = Ok n -> thumbnail n = thumb)
    /\ (forall n, _build_track media_item = Ok n -> thumbnail n = thumb)
    /\ (forall b n, _build_music_library media_item b = Ok n -> thumbnail n = None).
Proof.
  intros Hid Htags Hkey.
  pose proof (_get_thumbnail_url_Ok _ _ _ _ Hid Htags Hkey) as Hthumb.
  eexists. split; [exact Hthumb|].
  split; [apply fmap_is_Some|].
  split; [now intros tag ->|].
  repeat split.
  - intros b n H. unfold _build_artist in H. rewrite Hthumb in H.
    inv_bind; subst; reflexivity.
  - intros b n H. unfold _build_album in H. rewrite Hthumb in H.
    inv_bind; subst; reflexivity.
  - intros n H. unfold _build_track in H. rewrite Hthumb in H.
    inv_bind; subst; reflexivity.
  - intros b n H. unfold _build_music_library in H.
    inv_bind; subst; reflexivity.
Qed.

(** ** Browsing *)

(** C7.  Browsing a library by its identifier fails with
    [UnsupportedCollectionType], carrying the collection type, when that type
    is not "music". *)
Theorem browse_unsupported_collection_type (item : MediaSourceItem.t)
    (media_types : list string) (library : RemoteItem) (collection_type : string) :
  falsy (MediaSourceItem.identifier item) = false ->
  get_item (api self) (MediaSourceItem.identifier item) = Ok library ->
  Type_ library = Some ITEM_TYPE_LIBRARY ->
  CollectionType library = Some collection_type ->
  collection_type <> "music" ->
  async_browse_media item media_types = Err (UnsupportedCollectionType collection_type).
Proof.
  intros Hid Hget Hty Hct Hne.
  unfold async_browse_media. rewrite Hid, Hget. simpl.
  rewrite Hty. simpl. rewrite String.eqb_refl.
  unfold _build_library. rewrite Hct. cbn [bind getitem].
  apply String.eqb_neq in Hne. unfold COLLECTION_TYPE_MUSIC. now rewrite Hne.
Qed.

(** C10.  The media-type filter is never consulted: two browse calls that
    differ only in [media_types] return the same tree or raise the same
    exception. *)
Theorem browse_ignores_media_types (item : MediaSourceItem.t)
    (media_types media_types' : list string) :
  async_browse_media item media_types = async_browse_media item media_types'.
Proof. reflexivity. Qed.

(** *** Summary nodes and track nodes *)

Lemma _build_artist_summary (artist : RemoteItem) (api_key : string) :
  has_node_keys artist ->
  config_data (client self) !! "auth.token" = Some api_key ->
  exists n, _build_artist artist false = Ok n
    /\ node_of artist n /\ media_class n = "artist"
    /\ can_play n = false /\ can_expand n = true /\ children n = None.
Proof.
  intros ([id Hid] & [nm Hnm] & [tags Htags]) Hkey. unfold _build_artist.
  rewrite (_get_thumbnail_url_Ok _ _ _ _ Hid Htags Hkey), Hid, Hnm. simpl.
  eexists. split; [reflexivity|]. unfold node_of. simpl. auto.
Qed.

Lemma _build_track_Ok (track : RemoteItem) (api_key : string) :
  playable_track track ->
  config_data (client self) !! "auth.token" = Some api_key ->
  exists n, _build_track track = Ok n
    /\ node_of track n /\ media_class n = "track"
    /\ can_play n = true /\ can_expand n = false /\ children n = None.
Proof.
  intros (([id Hid] & [nm Hnm] & [tags Htags]) & _ & src & rest & path & mime & Hs & Hp & Hg)
    Hkey.
  unfold _build_track.
  rewrite (_get_thumbnail_url_Ok _ _ _ _ Hid Htags Hkey),
    (_media_mime_type_guessed _ _ _ _ _ Hs Hp Hg), Hid, Hnm. simpl.
  eexists. split; [reflexivity|]. unfold node_of. simpl. auto.
Qed.

Lemma _get_children_Ok (parent_id item_type : string) (items : list RemoteItem) :
  user_items (api self) "" (_get_children_params parent_id item_type)
    = Ok {| Items := Some items |} ->
  _get_children parent_id item_type = Ok items.
Proof. unfold _get_children. now intros ->. Qed.

(** *** Listing the children of a library and of an album *)

Lemma _build_artists_Ok (library_id api_key : string) (artists : list RemoteItem) :
  _get_children library_id ITEM_TYPE_ARTIST = Ok artists ->
  Forall has_node_keys artists ->
  config_data (client self) !! "auth.token" = Some api_key ->
  exists cs sorted_artists,
    _build_artists library_id = Ok cs
    /\ Permutation artists sorted_artists
    /\ Forall2 node_of sorted_artists cs
    /\ Forall (fun c => media_class c = "artist") cs
    /\ Sorted title_le cs.
Proof.
  intros Hget Hkeys Hkey. unfold _build_artists. rewrite Hget. cbn [bind].
  destruct (sorted_Ok String.leb String.leb_total
              (fun k => getitem ITEM_KEY_NAME (Name k))
              (fun k => default "" (Name k)) artists)
    as (ys & -> & Hperm & Hsorted).
  { eapply List.Forall_impl; [|exact Hkeys].
    intros a (_ & [nm Hnm] & _). now rewrite Hnm. }
  cbn [bind].
  destruct (mapM_Forall2_total (fun artist => _build_artist artist false)
              (fun a n => node_of a n /\ media_class n = "artist") ys)
    as (cs & -> & Hcs).
  { rewrite <- Hperm. eapply List.Forall_impl; [|exact Hkeys].
    intros a Ha. destruct (_build_artist_summary a api_key Ha Hkey)
      as (n & Hn & Hof & Hclass & _). eauto. }
  exists cs, ys. repeat split; try assumption.
  - eapply Forall2_impl; [exact Hcs|]. now intros a n [H _].
  - eapply Forall2_Forall_r; [exact Hcs|].
    apply List.Forall_forall. now intros a _ n [_ H].
  - eapply Sorted_Forall2; [|exact Hcs|exact Hsorted].
    intros a a' n n' [[_ Hn] _] [[_ Hn'] _]. unfold title_le.
    now rewrite Hn, Hn'.
Qed.

Lemma Sorted_index_le (tracks : list RemoteItem) :
  Forall (fun t => is_Some (IndexNumber t)) tracks ->
  Sorted (fun a b => Z.leb (default 0%Z (IndexNumber a)) (default 0%Z (IndexNumber b)) = true)
    tracks ->
  Sorted index_le tracks.
Proof.
  intros Hidx. apply Sorted_Forall2 with (Q := fun a b => a = b /\ is_Some (IndexNumber a)).
  - intros a a' ? ? [<- [i Hi]] [<- [j Hj]]. unfold index_le.
    rewrite Hi, Hj. simpl. apply Z.leb_le.
  - induction Hidx; constructor; auto.
Qed.

Lemma _build_tracks_Ok (album_id api_key : string) (tracks : list RemoteItem) :
  _get_children album_id ITEM_TYPE_AUDIO = Ok tracks ->
  Forall playable_track tracks ->
  config_data (client self) !! "auth.token" = Some api_key ->
  exists cs sorted_tracks,
    _build_tracks album_id = Ok cs
    /\ Permutation tracks sorted_tracks
    /\ Sorted index_le sorted_tracks
    /\ Forall2 node_of sorted_tracks cs
    /\ Forall (fun c => media_class c = "track"
                        /\ can_play c = true /\ can_expand c = false) cs.
Proof.
  intros Hget Hplay Hkey. unfold _build_tracks. rewrite Hget. cbn [bind].
  assert (Hleb : forall a b : Z, Z.leb a b = true \/ Z.leb b a = true).
  { intros a b. rewrite !Z.leb_le. lia. }
  destruct (sorted_Ok Z.leb Hleb
              (fun k => getitem ITEM_KEY_INDEX_NUMBER (IndexNumber k))
              (fun k => default 0%Z (IndexNumber k)) tracks)
    as (ys & -> & Hperm & Hsorted).
  { eapply List.Forall_impl; [|exact Hplay].
    intros t (_ & [i Hi] & _). now rewrite Hi. }
  cbn [bind].
  assert (Hplay' : Forall playable_track ys) by now rewrite <- Hperm.
  destruct (mapM_Forall2_total _build_track
              (fun t n => node_of t n /\ media_class n = "track"
                          /\ can_play n = true /\ can_expand n = false) ys)
    as (cs & -> & Hcs).
  { eapply List.Forall_impl; [|exact Hplay'].
    intros t Ht. destruct (_build_track_Ok t api_key Ht Hkey)
      as (n & Hn & Hof & Hclass & Hcp & Hce & _). eauto 6. }
  exists cs, ys. repeat split; try assumption.
  - apply Sorted_index_le; [|exact Hsorted].
    eapply List.Forall_impl; [|exact Hplay']. now intros t (_ & H & _).
  - eapply Forall2_impl; [exact Hcs|]. now intros a n [H _].
  - eapply Forall2_Forall_r; [exact Hcs|].
    apply List.Forall_forall. now intros a _ n [_ H].
Qed.

(** C4.  Browsing a music library with N artists returns a node with
    exactly N children: the nodes of the artists, each classified "artist",
    in non-decreasing order of artist name (the child's title). *)
Theorem browse_music_library_artists (item : MediaSourceItem.t)
    (media_types : list string) (library : RemoteItem)
    (library_id library_name api_key : string) (artists : list RemoteItem) :
  falsy (MediaSourceItem.identifier item) = false ->
  get_item (api self) (MediaSourceItem.identifier item) = Ok library ->
  Type_ library = Some ITEM_TYPE_LIBRARY ->
  CollectionType library = Some "music" ->
  Id library = Some library_id ->
  Name library = Some library_name ->
  user_items (api self) "" (_get_children_params library_id ITEM_TYPE_ARTIST)
    = Ok {| Items := Some artists |} ->
  Forall has_node_keys artists ->
  config_data (client self) !! "auth.token" = Some api_key ->
  exists node cs sorted_artists,
    async_browse_media item media_types = Ok node
    /\ children node = Some cs
    /\ length cs = length artists
    /\ Forall (fun c => media_class c = "artist") cs
    /\ StronglySorted title_le cs
    /\ Permutation artists sorted_artists
    /\ Forall2 node_of sorted_artists cs.
Proof.
  intros Hid Hget Hty Hct Hlid Hname Hitems Hkeys Hkey.
  destruct (_build_artists_Ok library_id api_key artists
              (_get_children_Ok _ _ _ Hitems) Hkeys Hkey)
    as (cs & sorted_artists & Hcs & Hperm & Hof & Hclass & Hsorted).
  unfold async_browse_media. rewrite Hid, Hget. cbn [bind].
  rewrite Hty. cbn [bind getitem]. rewrite String.eqb_refl.
  unfold _build_library. rewrite Hct. cbn [bind getitem].
  change (String.eqb "music" COLLECTION_TYPE_MUSIC) with true. cbv iota.
  unfold _build_music_library. rewrite Hlid, Hname. cbn [bind getitem].
  rewrite Hcs. cbn [bind].
  apply title_le_StronglySorted in Hsorted.
  eexists _, cs, sorted_artists. split; [reflexivity|].
  repeat split; try assumption.
  rewrite (Permutation_length Hperm). symmetry. eapply Forall2_length, Hof.
Qed.

(** C5, as amended.  Browsing an album with N tracks, each with its id, name
    and image tags, an index number and a first media source whose path has
    a guessable MIME type, returns a node with exactly N children: the nodes
    of the tracks in non-decreasing order of index number, every one
    playable and not expandable. *)
Theorem browse_album_tracks (item : MediaSourceItem.t) (media_types : list string)
    (album : RemoteItem) (album_id album_title api_key : string)
    (tracks : list RemoteItem) :
  falsy (MediaSourceItem.identifier item) = false ->
  get_item (api self) (MediaSourceItem.identifier item) = Ok album ->
  Type_ album = Some ITEM_TYPE_ALBUM ->
  ITEM_TYPE_ALBUM <> ITEM_TYPE_LIBRARY ->
  ITEM_TYPE_ALBUM <> ITEM_TYPE_ARTIST ->
  Id album = Some album_id ->
  Name album = Some album_title ->
  is_Some (ImageTags album) ->
  user_items (api self) "" (_get_children_params album_id ITEM_TYPE_AUDIO)
    = Ok {| Items := Some tracks |} ->
  Forall playable_track tracks ->
  config_data (client self) !! "auth.token" = Some api_key ->
  exists node cs sorted_tracks,
    async_browse_media item media_types = Ok node
    /\ children node = Some cs
    /\ length cs = length tracks
    /\ Forall (fun c => can_play c = true /\ can_expand c = false) cs
    /\ Permutation tracks sorted_tracks
    /\ StronglySorted index_le sorted_tracks
    /\ Forall2 node_of sorted_tracks cs.
Proof.
  intros Hid Hget Hty Hnl Hna Haid Hname [tags Htags] Hitems Hplay Hkey.
  destruct (_build_tracks_Ok album_id api_key tracks
              (_get_children_Ok _ _ _ Hitems) Hplay Hkey)
    as (cs & sorted_tracks & Hcs & Hperm & Hsorted & Hof & Hleaf).
  unfold async_browse_media. rewrite Hid, Hget. cbn [bind].
  rewrite Hty. cbn [bind getitem].
  apply String.eqb_neq in Hnl, Hna. rewrite Hnl, Hna, String.eqb_refl.
  unfold _build_album.
  rewrite (_get_thumbnail_url_Ok _ _ _ _ Haid Htags Hkey), Haid, Hname.
  cbn [bind getitem]. rewrite Hcs. cbn [bind].
  apply index_le_StronglySorted in Hsorted.
  eexists _, cs, sorted_tracks. split; [reflexivity|].
  repeat split; try assumption.
  - rewrite (Permutation_length Hperm). symmetry. eapply Forall2_length, Hof.
  - eapply List.Forall_impl; [|exact Hleaf]. now intros c (_ & H).
Qed.

(** *** Every node is playable or expandable, never both *)

Lemma forallb_mapM {A : Type} (f : A -> result BrowseMediaSource)
    (P : BrowseMediaSource -> bool) (xs : list A) (ns : list BrowseMediaSource) :
  (forall x n, f x = Ok n -> P n = true) ->
  mapM f xs = Ok ns -> forallb P ns = true.
Proof.
  intros HP H. apply mapM_Forall2 in H.
  induction H as [|x n xs ns Hx _ IH]; simpl; [reflexivity|].
  now rewrite (HP x n Hx), IH.
Qed.

Lemma _build_track_node_ok (track : RemoteItem) (n : BrowseMediaSource) :
  _build_track track = Ok n -> tree_forall node_ok n = true.
Proof. unfold _build_track. intros H. inv_bind. now subst n. Qed.

Lemma _build_album_node_ok (album : RemoteItem) (b : bool) (n : BrowseMediaSource) :
  _build_album album b = Ok n -> tree_forall node_ok n = true.
Proof.
  unfold _build_album. intros H. inv_bind; subst n; [|reflexivity].
  unfold _build_tracks in Ha2. inv_bind.
  simpl. apply (forallb_mapM _ _ _ _ _build_track_node_ok Ha2).
Qed.

Lemma _build_artist_node_ok (artist : RemoteItem) (b : bool) (n : BrowseMediaSource) :
  _build_artist artist b = Ok n -> tree_forall node_ok n = true.
Proof.
  unfold _build_artist. intros H. inv_bind; subst n; [|reflexivity].
  unfold _build_albums in Ha2. inv_bind.
  simpl. refine (forallb_mapM _ _ _ _ _ Ha2).
  intros x n. apply _build_album_node_ok.
Qed.

Lemma _build_library_node_ok (library : RemoteItem) (b : bool) (n : BrowseMediaSource) :
  _build_library library b = Ok n -> tree_forall node_ok n = true.
Proof.
  unfold _build_library, _build_music_library. intros H.
  inv_bind; subst n; [|reflexivity].
  unfold _build_artists in Ha2. inv_bind.
  simpl. refine (forallb_mapM _ _ _ _ _ Ha2).
  intros x n. apply _build_artist_node_ok.
Qed.

Lemma _build_libraries_root (n : BrowseMediaSource) :
  _build_libraries = Ok n ->
  identifier n = None /\ can_play n = false /\ can_expand n = true
  /\ tree_forall node_ok n = true.
Proof.
  unfold _build_libraries. intros H. inv_bind. subst n. simpl.
  repeat split. refine (forallb_mapM _ _ _ _ _ Ha0).
  intros x n. apply _build_library_node_ok.
Qed.

(** C9.  Every node of a tree returned by a browse call, at any depth, is
    playable or expandable and not both: a track node is playable and not
    expandable, a directory (root or library), artist or album node is
    expandable and not playable.  The root node has no identifier and is not
    playable. *)
Theorem browse_nodes_playable_xor_expandable (item : MediaSourceItem.t)
    (media_types : list string) (node : BrowseMediaSource) :
  async_browse_media item media_types = Ok node ->
  tree_forall node_ok node = true
  /\ (falsy (MediaSourceItem.identifier item) = true ->
      identifier node = None /\ can_play node = false).
Proof.
  unfold async_browse_media. intros H.
  destruct (falsy (MediaSourceItem.identifier item)).
  - apply _build_libraries_root in H. tauto.
  - split; [|discriminate]. inv_bind.
    + eapply _build_library_node_ok, H.
    + eapply _build_artist_node_ok, H.
    + eapply _build_album_node_ok, H.
Qed.

(** *** The root listing *)

Lemma supported_library_not_music (library : RemoteItem) :
  supported_library library = true ->
  exists collection_type,
    CollectionType library = Some collection_type
    /\ In collection_type SUPPORTED_COLLECTION_TYPES
    /\ collection_type <> COLLECTION_TYPE_MUSIC.
Proof.
  unfold supported_library. destruct (CollectionType library) as [ct|]; [|discriminate].
  intros H. apply existsb_exists in H. destruct H as (t & Hin & Heq).
  apply String.eqb_eq in Heq. subst t. exists ct. repeat split; [assumption|].
  intros ->. destruct Hin as [H|[H|[]]]; discriminate H.
Qed.

(** A library that passes the filter of [_get_libraries] makes
    [_build_library] raise: the root listing never has a child. *)
Lemma _build_libraries_no_child (n : BrowseMediaSource) :
  _build_libraries = Ok n -> children n = Some [].
Proof.
  unfold _build_libraries. intros H. inv_bind. subst n. simpl. f_equal.
  unfold _get_libraries in Ha. inv_bind. subst a.
  destruct (List.filter supported_library a2) as [|library ls] eqn:Hf.
  - simpl in Ha0. congruence.
  - exfalso.
    assert (Hin : In library (List.filter supported_library a2))
      by (rewrite Hf; now left).
    apply List.filter_In in Hin. destruct Hin as [_ Hs].
    apply supported_library_not_music in Hs. destruct Hs as (ct & Hct & _ & Hne).
    simpl in Ha0. unfold _build_library in Ha0 at 1. rewrite Hct in Ha0.
    cbn [bind getitem] in Ha0. apply String.eqb_neq in Hne. rewrite Hne in Ha0.
    discriminate.
Qed.

(** ** Further properties of resolving *)

(** X13.  Whenever a stream is returned, the item is an audio item, the URL is the
    audio stream URL of its id and of the three configured values, and the
    MIME type is the guess for the path of its first media source. *)
Theorem resolve_Ok_audio (item : MediaSourceItem.t) (play : PlayMedia.t) :
  async_resolve_media item = Ok play ->
  exists media_item item_id user_id device_id api_key source rest path,
    get_item (api self) (MediaSourceItem.identifier item) = Ok media_item
    /\ MediaType media_item = Some "Audio"
    /\ Id media_item = Some item_id
    /\ config_data (client self) !! "auth.user_id" = Some user_id
    /\ config_data (client self) !! "app.device_id" = Some device_id
    /\ config_data (client self) !! "auth.token" = Some api_key
    /\ MediaSources media_item = Some (source :: rest)
    /\ Path source = Some path
    /\ guess_type path = Some (PlayMedia.mime_type play)
    /\ PlayMedia.url play =
         url self ++ "Audio/" ++ item_id ++ "/universal?UserId=" ++ user_id
           ++ "&DeviceId=" ++ device_id ++ "&api_key=" ++ api_key
           ++ "&MaxStreamingBitrate=140000000".
Proof.
  unfold async_resolve_media, _get_stream_url, _get_audio_stream_url,
    _media_mime_type, dict_get.
  intros H.
  destruct (get_item (api self) (MediaSourceItem.identifier item))
    as [media_item|] eqn:Hget; cbn [bind] in H; [|discriminate].
  destruct (MediaType media_item) as [media_type|] eqn:Hmt;
    cbn [bind getitem] in H; [|discriminate].
  destruct (String.eqb media_type MEDIA_TYPE_AUDIO) eqn:Haudio;
    cbn [bind] in H; [|discriminate].
  apply String.eqb_eq in Haudio. subst media_type.
  destruct (Id media_item) as [item_id|] eqn:Hid;
    cbn [bind getitem] in H; [|discriminate].
  destruct (config_data (client self) !! "auth.user_id") as [user_id|] eqn:Huser;
    cbn [bind getitem] in H; [|discriminate].
  destruct (config_data (client self) !! "app.device_id") as [device_id|] eqn:Hdev;
    cbn [bind getitem] in H; [|discriminate].
  destruct (config_data (client self) !! "auth.token") as [api_key|] eqn:Hkey;
    cbn [bind getitem] in H; [|discriminate].
  destruct (MediaSources media_item) as [[|source rest]|] eqn:Hs;
    cbn [bind getitem index0] in H; try discriminate.
  destruct (Path source) as [path|] eqn:Hp; cbn [bind getitem] in H; [|discriminate].
  destruct (guess_type path) as [mime|] eqn:Hg; cbn [bind] in H; [|discriminate].
  injection H as <-. cbn [PlayMedia.url PlayMedia.mime_type].
  exists media_item, item_id, user_id, device_id, api_key, source, rest, path.
  repeat split; assumption || reflexivity.
Qed.

(** X14.  Resolving an audio item whose first media source has a path the table
    cannot guess raises [MimeTypeUndetermined] with that path. *)
Theorem resolve_mime_undetermined (item : MediaSourceItem.t) (media_item : RemoteItem)
    (source : MediaSourceInfo) (rest : list MediaSourceInfo)
    (path item_id user_id device_id api_key : string) :
  get_item (api self) (MediaSourceItem.identifier item) = Ok media_item ->
  MediaType media_item = Some "Audio" ->
  Id media_item = Some item_id ->
  config_data (client self) !! "auth.user_id" = Some user_id ->
  config_data (client self) !! "app.device_id" = Some device_id ->
  config_data (client self) !! "auth.token" = Some api_key ->
  MediaSources media_item = Some (source :: rest) ->
  Path source = Some path ->
  guess_type path = None ->
  async_resolve_media item = Err (MimeTypeUndetermined path).
Proof.
  intros Hget Hmt Hid Huser Hdev Hkey Hsrc Hpath Hguess.
  unfold async_resolve_media. rewrite Hget. cbn [bind].
  rewrite (_get_stream_url_audio _ Hmt). unfold _get_audio_stream_url.
  rewrite (getitem_Some _ _ _ Hid), (dict_get_Some _ _ _ Huser),
    (dict_get_Some _ _ _ Hdev), (dict_get_Some _ _ _ Hkey). cbn [bind].
  now rewrite (_media_mime_type_guess_failed _ _ _ _ Hsrc Hpath Hguess).
Qed.

(** X15.  The content type a track node announces is the MIME type resolving the
    same item returns. *)
Theorem track_content_type_resolves (track : RemoteItem) (n : BrowseMediaSource)
    (item : MediaSourceItem.t) (user_id device_id : string) :
  _build_track track = Ok n ->
  get_item (api self) (MediaSourceItem.identifier item) = Ok track ->
  MediaType track = Some "Audio" ->
  config_data (client self) !! "auth.user_id" = Some user_id ->
  config_data (client self) !! "app.device_id" = Some device_id ->
  exists play,
    async_resolve_media item = Ok play
    /\ PlayMedia.mime_type play = media_content_type n.
Proof.
  intros Hbuild Hget Hmt Huser Hdev.
  unfold _build_track, _get_thumbnail_url in Hbuild.
  destruct (getitem ITEM_KEY_ID (Id track)) as [track_id|] eqn:Hid;
    cbn [bind] in Hbuild; [|discriminate].
  destruct (getitem ITEM_KEY_NAME (Name track)) as [track_title|];
    cbn [bind] in Hbuild; [|discriminate].
  destruct (_media_mime_type track) as [mime|] eqn:Hmime;
    cbn [bind] in Hbuild; [|discriminate].
  destruct (getitem ITEM_KEY_IMAGE_TAGS (ImageTags track));
    cbn [bind] in Hbuild; [|discriminate].
  destruct (dict_get (config_data (client self)) "auth.token") as [api_key|] eqn:Hkey;
    cbn [bind] in Hbuild; [|discriminate].
  unfold async_resolve_media. rewrite Hget. cbn [bind].
  rewrite (_get_stream_url_audio _ Hmt). unfold _get_audio_stream_url.
  rewrite Hid, (dict_get_Some _ _ _ Huser), (dict_get_Some _ _ _ Hdev), Hkey.
  cbn [bind]. rewrite Hmime. cbn [bind].
  eexists. split; [reflexivity|].
  destruct (_ !! "Primary"); injection Hbuild as <-; reflexivity.
Qed.

(** ** Missing image tags and a missing token *)

(** X12.  An item without the ImageTags key has no absent thumbnail but a
    [KeyError]: the artist and album builders raise it, whether or not they
    expand.  So does a missing token, also for an item without a "Primary"
    tag. *)
Theorem thumbnail_KeyError (media_item : RemoteItem) (item_id item_name : string) :
  Id media_item = Some item_id ->
  Name media_item = Some item_name ->
  (ImageTags media_item = None ->
     _get_thumbnail_url media_item = Err (KeyError "ImageTags")
     /\ forall b, _build_artist media_item b = Err (KeyError "ImageTags")
               /\ _build_album media_item b = Err (KeyError "ImageTags"))
  /\ (is_Some (ImageTags media_item) ->
      config_data (client self) !! "auth.token" = None ->
      _get_thumbnail_url media_item = Err (KeyError "auth.token")
      /\ forall b, _build_artist media_item b = Err (KeyError "auth.token")
                /\ _build_album media_item b = Err (KeyError "auth.token")).
Proof.
  intros Hid Hname. split.
  - intros Htags.
    assert (H : _get_thumbnail_url media_item = Err (KeyError "ImageTags")).
    { unfold _get_thumbnail_url. now rewrite Hid, Htags. }
    split; [exact H|]. intros b. unfold _build_artist, _build_album.
    now rewrite Hid, Hname, H.
  - intros [tags Htags] Hkey.
    assert (H : _get_thumbnail_url media_item = Err (KeyError "auth.token")).
    { unfold _get_thumbnail_url, dict_get. now rewrite Hid, Htags, Hkey. }
    split; [exact H|]. intros b. unfold _build_artist, _build_album.
    now rewrite Hid, Hname, H.
Qed.

(** ** Setting up the media source *)

(** X17.  Without a config entry for the domain, setting up the source raises
    [IndexError]. *)
Theorem async_get_media_source_no_entry (hass : HomeAssistant) :
  async_entries hass DOMAIN = [] ->
  async_get_media_source hass = Err IndexError.
Proof. unfold async_get_media_source. now intros ->. Qed.

(** X18.  The source is set up from the client of the first config entry; further
    entries are not looked at. *)
Theorem async_get_media_source_first_entry (hass : HomeAssistant)
    (entry : ConfigEntry) (others : list ConfigEntry)
    (domain_data : gmap string (gmap string JellyfinClient))
    (entry_data : gmap string JellyfinClient) (c : JellyfinClient) :
  async_entries hass DOMAIN = entry :: others ->
  data hass !! DOMAIN = Some domain_data ->
  domain_data !! entry_id entry = Some entry_data ->
  entry_data !! DATA_CLIENT = Some c ->
  exists source,
    async_get_media_source hass = Ok source
    /\ client source = c
    /\ api source = jellyfin c
    /\ url source = jellyfin_url c "".
Proof.
  intros Hentries Hdata Hentry Hclient. unfold async_get_media_source.
  rewrite Hentries. cbn [index0 bind]. rewrite Hdata. cbn [getitem bind].
  rewrite Hentry. cbn [getitem bind]. rewrite Hclient. cbn [getitem bind].
  eexists. split; [reflexivity|]. repeat split.
Qed.

(** ** Further properties of browsing *)

(** X1.  Browsing an item that is no library, artist or album, a track for one,
    fails with [UnsupportedItemType] carrying the item type. *)
Theorem browse_unsupported_item_type (item : MediaSourceItem.t)
    (media_types : list string) (media_item : RemoteItem) (item_type : string) :
  falsy (MediaSourceItem.identifier item) = false ->
  get_item (api self) (MediaSourceItem.identifier item) = Ok media_item ->
  Type_ media_item = Some item_type ->
  item_type <> ITEM_TYPE_LIBRARY ->
  item_type <> ITEM_TYPE_ARTIST ->
  item_type <> ITEM_TYPE_ALBUM ->
  async_browse_media item media_types = Err (UnsupportedItemType item_type).
Proof.
  intros Hid Hget Hty Hl Har Hal.
  unfold async_browse_media. rewrite Hid, Hget. cbn [bind]. rewrite Hty.
  cbn [bind getitem]. apply String.eqb_neq in Hl, Har, Hal.
  now rewrite Hl, Har, Hal.
Qed.

Lemma _build_album_summary (album : RemoteItem) (api_key : string) :
  has_node_keys album ->
  config_data (client self) !! "auth.token" = Some api_key ->
  exists n, _build_album album false = Ok n
    /\ node_of album n /\ media_class n = "album" /\ summary n.
Proof.
  intros ([id Hid] & [nm Hnm] & [tags Htags]) Hkey. unfold _build_album.
  rewrite (_get_thumbnail_url_Ok _ _ _ _ Hid Htags Hkey), Hid, Hnm. simpl.
  eexists. split; [reflexivity|]. unfold node_of, summary. simpl. auto.
Qed.

(** X2.  Browsing an artist with N albums returns the artist node with exactly N
    children: the summary nodes of the albums, each classified "album", in
    non-decreasing order of album name.  An artist without albums gets an
    empty list of children, not an error. *)
Theorem browse_artist_albums (item : MediaSourceItem.t) (media_types : list string)
    (artist : RemoteItem) (artist_id artist_name api_key : string)
    (albums : list RemoteItem) :
  falsy (MediaSourceItem.identifier item) = false ->
  get_item (api self) (MediaSourceItem.identifier item) = Ok artist ->
  Type_ artist = Some ITEM_TYPE_ARTIST ->
  ITEM_TYPE_ARTIST <> ITEM_TYPE_LIBRARY ->
  Id artist = Some artist_id ->
  Name artist = Some artist_name ->
  is_Some (ImageTags artist) ->
  user_items (api self) "" (_get_children_params artist_id ITEM_TYPE_ALBUM)
    = Ok {| Items := Some albums |} ->
  Forall has_node_keys albums ->
  config_data (client self) !! "auth.token" = Some api_key ->
  exists node cs sorted_albums,
    async_browse_media item media_types = Ok node
    /\ identifier node = Some artist_id
    /\ title node = artist_name
    /\ media_class node = "artist"
    /\ children node = Some cs
    /\ length cs = length albums
    /\ Forall (fun c => media_class c = "album" /\ summary c) cs
    /\ StronglySorted title_le cs
    /\ Permutation albums sorted_albums
    /\ Forall2 node_of sorted_albums cs.
Proof.
  intros Hid Hget Hty Hnl Haid Hname [tags Htags] Hitems Hkeys Hkey.
  unfold async_browse_media. rewrite Hid, Hget. cbn [bind].
  rewrite Hty. cbn [bind getitem].
  apply String.eqb_neq in Hnl. rewrite Hnl, String.eqb_refl.
  unfold _build_artist.
  rewrite (_get_thumbnail_url_Ok _ _ _ _ Haid Htags Hkey), Haid, Hname.
  cbn [bind getitem]. unfold _build_albums.
  rewrite (_get_children_Ok _ _ _ Hitems). cbn [bind].
  destruct (sorted_Ok String.leb String.leb_total
              (fun k => getitem ITEM_KEY_NAME (Name k))
              (fun k => default "" (Name k)) albums)
    as (ys & -> & Hperm & Hsorted).
  { eapply List.Forall_impl; [|exact Hkeys].
    intros a (_ & [nm Hnm] & _). now rewrite Hnm. }
  cbn [bind].
  destruct (mapM_Forall2_total (fun album => _build_album album false)
              (fun a n => node_of a n /\ media_class n = "album" /\ summary n) ys)
    as (cs & -> & Hcs).
  { rewrite <- Hperm. eapply List.Forall_impl; [|exact Hkeys].
    intros a Ha. destruct (_build_album_summary a api_key Ha Hkey)
      as (n & Hn & Hof & Hclass & Hsum). eauto. }
  cbn [bind].
  eexists _, cs, ys. split; [reflexivity|].
  split; [reflexivity|]. split; [reflexivity|]. split; [reflexivity|].
  split; [reflexivity|].
  split; [rewrite (Permutation_length Hperm); symmetry; eapply Forall2_length, Hcs|].
  split.
  { eapply Forall2_Forall_r; [exact Hcs|].
    apply List.Forall_forall. now intros a _ n [_ H]. }
  split.
  { apply title_le_StronglySorted.
    eapply Sorted_Forall2; [|exact Hcs|exact Hsorted].
    intros a a' n n' [[_ Hn] _] [[_ Hn'] _]. unfold title_le.
    now rewrite Hn, Hn'. }
  split; [exact Hperm|].
  eapply Forall2_impl; [exact Hcs|]. now intros a n [H _].
Qed.

(** *** Listings that fail as a whole *)

(** A comprehension raises what its first failing element raises. *)
Lemma mapM_Err {A B : Type} (f : A -> result B) (xs : list A) :
  Exists (fun x => exists e, f x = Err e) xs ->
  exists x e, In x xs /\ f x = Err e /\ mapM f xs = Err e.
Proof.
  induction xs as [|x xs IH]; intros Hex; [inversion Hex|].
  simpl. destruct (f x) as [y|e] eqn:Hx.
  - inversion Hex as [? ? [e He]|? ? Hex']; subst; [congruence|].
    destruct (IH Hex') as (x' & e & Hin & He & Hm).
    exists x', e. rewrite Hm. auto.
  - exists x, e. auto.
Qed.

(** One element without the key makes [sorted] raise the [KeyError]. *)
Lemma sorted_KeyError {A K : Type} (leb : K -> K -> bool) (key : string)
    (field : A -> option K) (xs : list A) :
  Exists (fun x => field x = None) xs ->
  sorted leb (fun x => getitem key (field x)) xs = Err (KeyError key).
Proof.
  intros Hex. unfold sorted.
  destruct (mapM_Err (fun x => let* k := getitem key (field x) in Ok (k, x)) xs)
    as (x & e & _ & He & ->).
  - eapply List.Exists_impl; [|exact Hex]. simpl. intros x ->. now eexists.
  - simpl. destruct (field x); simpl in He; congruence.
Qed.

(** X6.  Browsing an album of which one track has no IndexNumber raises
    [KeyError]: no node is returned, also not for the other tracks. *)
Theorem browse_album_track_without_index (item : MediaSourceItem.t)
    (media_types : list string) (album : RemoteItem)
    (album_id album_title api_key : string) (tracks : list RemoteItem) :
  falsy (MediaSourceItem.identifier item) = false ->
  get_item (api self) (MediaSourceItem.identifier item) = Ok album ->
  Type_ album = Some ITEM_TYPE_ALBUM ->
  ITEM_TYPE_ALBUM <> ITEM_TYPE_LIBRARY ->
  ITEM_TYPE_ALBUM <> ITEM_TYPE_ARTIST ->
  Id album = Some album_id ->
  Name album = Some album_title ->
  is_Some (ImageTags album) ->
  config_data (client self) !! "auth.token" = Some api_key ->
  user_items (api self) "" (_get_children_params album_id ITEM_TYPE_AUDIO)
    = Ok {| Items := Some tracks |} ->
  Exists (fun track => IndexNumber track = None) tracks ->
  async_browse_media item media_types = Err (KeyError "IndexNumber").
Proof.
  intros Hid Hget Hty Hnl Hna Haid Hname [tags Htags] Hkey Hitems Hex.
  unfold async_browse_media. rewrite Hid, Hget. cbn [bind].
  rewrite Hty. cbn [bind getitem].
  apply String.eqb_neq in Hnl, Hna. rewrite Hnl, Hna, String.eqb_refl.
  unfold _build_album.
  rewrite (_get_thumbnail_url_Ok _ _ _ _ Haid Htags Hkey), Haid, Hname.
  cbn [bind getitem]. unfold _build_tracks.
  rewrite (_get_children_Ok _ _ _ Hitems). cbn [bind].
  now rewrite (sorted_KeyError Z.leb ITEM_KEY_INDEX_NUMBER IndexNumber tracks Hex).
Qed.

(** X7.  Browsing a music library of which one artist has no Name raises
    [KeyError]. *)
Theorem browse_library_artist_without_name (item : MediaSourceItem.t)
    (media_types : list string) (library : RemoteItem)
    (library_id library_name : string) (artists : list RemoteItem) :
  falsy (MediaSourceItem.identifier item) = false ->
  get_item (api self) (MediaSourceItem.identifier item) = Ok library ->
  Type_ library = Some ITEM_TYPE_LIBRARY ->
  CollectionType library = Some "music" ->
  Id library = Some library_id ->
  Name library = Some library_name ->
  user_items (api self) "" (_get_children_params library_id ITEM_TYPE_ARTIST)
    = Ok {| Items := Some artists |} ->
  Exists (fun artist => Name artist = None) artists ->
  async_browse_media item media_types = Err (KeyError "Name").
Proof.
  intros Hid Hget Hty Hct Hlid Hname Hitems Hex.
  unfold async_browse_media. rewrite Hid, Hget. cbn [bind].
  rewrite Hty. cbn [bind getitem]. rewrite String.eqb_refl.
  unfold _build_library. rewrite Hct. cbn [bind getitem].
  change (String.eqb "music" COLLECTION_TYPE_MUSIC) with true. cbv iota.
  unfold _build_music_library. rewrite Hlid, Hname. cbn [bind getitem].
  unfold _build_artists. rewrite (_get_children_Ok _ _ _ Hitems). cbn [bind].
  now rewrite (sorted_KeyError String.leb ITEM_KEY_NAME Name artists Hex).
Qed.

Lemma _build_track_Err (track : RemoteItem) (api_key : string) (e : exn) :
  sourced_track track ->
  config_data (client self) !! "auth.token" = Some api_key ->
  _build_track track = Err e ->
  exists path,
    first_path track = Some path /\ guess_type path = None
    /\ e = MimeTypeUndetermined path.
Proof.
  intros (([id Hid] & [nm Hnm] & [tags Htags]) & _ & src & rest & path & Hs & Hp) Hkey.
  unfold _build_track, first_path.
  rewrite (_get_thumbnail_url_Ok _ _ _ _ Hid Htags Hkey), Hid, Hnm, Hs.
  cbn [bind getitem]. unfold _media_mime_type. rewrite Hs. cbn [bind getitem index0].
  rewrite Hp. cbn [bind getitem].
  destruct (guess_type path) eqn:Hg; cbn [bind]; [discriminate|].
  intros [= <-]. now exists path.
Qed.

(** X8.  Browsing an album of which one track has a path the table cannot guess
    raises [MimeTypeUndetermined] with the path of such a track: no node is
    returned, also not for the other tracks. *)
Theorem browse_album_track_without_mime_type (item : MediaSourceItem.t)
    (media_types : list string) (album : RemoteItem)
    (album_id album_title api_key : string) (tracks : list RemoteItem) :
  falsy (MediaSourceItem.identifier item) = false ->
  get_item (api self) (MediaSourceItem.identifier item) = Ok album ->
  Type_ album = Some ITEM_TYPE_ALBUM ->
  ITEM_TYPE_ALBUM <> ITEM_TYPE_LIBRARY ->
  ITEM_TYPE_ALBUM <> ITEM_TYPE_ARTIST ->
  Id album = Some album_id ->
  Name album = Some album_title ->
  is_Some (ImageTags album) ->
  config_data (client self) !! "auth.token" = Some api_key ->
  user_items (api self) "" (_get_children_params album_id ITEM_TYPE_AUDIO)
    = Ok {| Items := Some tracks |} ->
  Forall sourced_track tracks ->
  Exists (fun track => exists path,
            first_path track = Some path /\ guess_type path = None) tracks ->
  exists track path,
    In track tracks
    /\ first_path track = Some path
    /\ guess_type path = None
    /\ async_browse_media item media_types = Err (MimeTypeUndetermined path).
Proof.
  intros Hid Hget Hty Hnl Hna Haid Hname [tags Htags] Hkey Hitems Hsrc Hex.
  unfold async_browse_media. rewrite Hid, Hget. cbn [bind].
  rewrite Hty. cbn [bind getitem].
  apply String.eqb_neq in Hnl, Hna. rewrite Hnl, Hna, String.eqb_refl.
  unfold _build_album.
  rewrite (_get_thumbnail_url_Ok _ _ _ _ Haid Htags Hkey), Haid, Hname.
  cbn [bind getitem]. unfold _build_tracks.
  rewrite (_get_children_Ok _ _ _ Hitems). cbn [bind].
  assert (Hleb : forall a b : Z, Z.leb a b = true \/ Z.leb b a = true).
  { intros a b. rewrite !Z.leb_le. lia. }
  destruct (sorted_Ok Z.leb Hleb
              (fun k => getitem ITEM_KEY_INDEX_NUMBER (IndexNumber k))
              (fun k => default 0%Z (IndexNumber k)) tracks)
    as (ys & -> & Hperm & _).
  { eapply List.Forall_impl; [|exact Hsrc].
    intros t (_ & [i Hi] & _). now rewrite Hi. }
  cbn [bind].
  destruct (mapM_Err _build_track ys) as (track & e & Hin & He & ->).
  { apply List.Exists_exists. apply List.Exists_exists in Hex.
    destruct Hex as (t & Hin & path & Hpath & Hg). exists t.
    split; [eapply Permutation_in; eassumption|].
    assert (Hs : sourced_track t) by (eapply List.Forall_forall in Hsrc; eassumption).
    destruct Hs as (([id Hi] & [nm Hnm] & [tg Htg]) & _ & src & rest & p & Hs & Hp).
    unfold first_path in Hpath. rewrite Hs, Hp in Hpath. injection Hpath as ->.
    exists (MimeTypeUndetermined path). unfold _build_track.
    rewrite Hi, Hnm. cbn [bind getitem].
    now rewrite (_media_mime_type_guess_failed _ _ _ _ Hs Hp Hg). }
  apply (Permutation_in _ (Permutation_sym Hperm)) in Hin.
  assert (Hs : sourced_track track) by (eapply List.Forall_forall in Hsrc; eassumption).
  destruct (_build_track_Err track api_key e Hs Hkey He) as (path & Hpath & Hg & ->).
  now exists track, path.
Qed.

(** *** The root listing, for every list of media folders *)

Lemma filter_unsupported (folders : list RemoteItem) :
  Forall (fun l => supported_library l = false) folders ->
  List.filter supported_library folders = [].
Proof. induction 1 as [|l ls Hl _ IH]; simpl; [reflexivity|]. now rewrite Hl. Qed.

(** X4.  The filter of [_get_libraries] keeps, in their order, the folders whose
    collection type is "movies" or "tvshows"; a folder without a collection
    type is skipped and raises nothing. *)
Theorem _get_libraries_filter (folders : list RemoteItem) :
  get_media_folders (api self) = Ok {| Items := Some folders |} ->
  exists libraries,
    _get_libraries = Ok libraries
    /\ sublist libraries folders
    /\ forall library,
         In library libraries <->
         In library folders
         /\ exists collection_type,
              CollectionType library = Some collection_type
              /\ (collection_type = "movies" \/ collection_type = "tvshows").
Proof.
  intros Hget. unfold _get_libraries. rewrite Hget. cbn [bind getitem Items].
  eexists. split; [reflexivity|]. split.
  - clear Hget. induction folders as [|l ls IH]; simpl; [constructor|].
    destruct (supported_library l); now constructor.
  - intros library. rewrite List.filter_In. unfold supported_library.
    split; intros [Hin H]; (split; [exact Hin|]).
    + destruct (CollectionType library) as [ct|]; [|discriminate].
      exists ct. split; [reflexivity|].
      unfold SUPPORTED_COLLECTION_TYPES in H. cbn [existsb] in H.
      apply orb_true_iff in H. destruct H as [H|H];
        [left; now apply String.eqb_eq in H|].
      apply orb_true_iff in H. destruct H as [H|H];
        [right; now apply String.eqb_eq in H | discriminate].
    + destruct H as (ct & -> & [-> | ->]); reflexivity.
Qed.

(** X3.  For a root request, with an absent or an empty identifier: when no media
    folder has the collection type "movies" or "tvshows", the root node is
    returned without children, whatever other folders exist; otherwise the
    call raises [UnsupportedCollectionType] with the collection type of the
    first such folder. *)
Theorem root_browse_by_folders (item : MediaSourceItem.t) (media_types : list string)
    (folders : list RemoteItem) :
  falsy (MediaSourceItem.identifier item) = true ->
  get_media_folders (api self) = Ok {| Items := Some folders |} ->
  (Forall (fun l => supported_library l = false) folders ->
   async_browse_media item media_types = Ok (empty_root MEDIA_TYPE_NONE))
  /\ (forall (skipped : list RemoteItem) library rest collection_type,
        folders = (skipped ++ library :: rest)%list ->
        Forall (fun l => supported_library l = false) skipped ->
        CollectionType library = Some collection_type ->
        In collection_type SUPPORTED_COLLECTION_TYPES ->
        async_browse_media item media_types
        = Err (UnsupportedCollectionType collection_type)).
Proof.
  intros Hid Hget. unfold async_browse_media. rewrite Hid.
  unfold _build_libraries, _get_libraries. rewrite Hget. cbn [bind getitem Items].
  split.
  - intros Hnone. now rewrite (filter_unsupported _ Hnone).
  - intros skipped library rest ct -> Hskipped Hct Hin.
    rewrite List.filter_app, (filter_unsupported _ Hskipped). simpl.
    assert (Hs : supported_library library = true).
    { unfold supported_library. rewrite Hct. apply existsb_exists.
      exists ct. split; [exact Hin | apply String.eqb_refl]. }
    rewrite Hs. cbn [mapM]. unfold _build_library at 1. rewrite Hct.
    cbn [bind getitem].
    destruct (supported_library_not_music library Hs) as (ct' & Hct' & _ & Hne).
    rewrite Hct in Hct'. injection Hct' as <-.
    apply String.eqb_neq in Hne. now rewrite Hne.
Qed.

(** *** One level of expansion *)

Lemma mapM_Forall {A B : Type} (f : A -> result B) (P : B -> Prop)
    (xs : list A) (ys : list B) :
  (forall x y, f x = Ok y -> P y) -> mapM f xs = Ok ys -> Forall P ys.
Proof.
  intros HP H. apply mapM_Forall2 in H.
  induction H as [|x y xs ys Hx _ IH]; constructor; eauto.
Qed.

Lemma _build_track_built (track : RemoteItem) (n : BrowseMediaSource) :
  _build_track track = Ok n -> built "track" track n /\ summary n.
Proof.
  unfold _build_track. intros H. inv_bind. subst n.
  apply getitem_Ok in Ha. unfold built, summary. cbn. rewrite Ha. eauto 6.
Qed.

Lemma _build_album_built (album : RemoteItem) (b : bool) (n : BrowseMediaSource) :
  _build_album album b = Ok n ->
  built "album" album n
  /\ if b then exists cs, children n = Some cs
                /\ children_media_class n = Some "track"
                /\ Forall (fun c => media_class c = "track" /\ summary c
                                    /\ domain c = DOMAIN /\ is_Some (identifier c)) cs
     else summary n.
Proof.
  unfold _build_album. intros H.
  destruct (getitem ITEM_KEY_ID (Id album)) as [album_id|] eqn:Hid;
    cbn [bind] in H; [|discriminate].
  apply getitem_Ok in Hid. inv_bind; subst n; unfold built, summary; cbn;
    rewrite Hid; (split; [eauto 6|]); [|auto].
  match goal with H : _build_tracks _ = Ok ?cs |- _ =>
    exists cs; unfold _build_tracks in H; inv_bind end.
  repeat split.
  match goal with H : mapM _ _ = Ok _ |- _ => refine (mapM_Forall _ _ _ _ _ H) end.
  intros t c Hc. apply _build_track_built in Hc. unfold built, summary in *. cbn beta. tauto.
Qed.

Lemma _build_artist_built (artist : RemoteItem) (b : bool) (n : BrowseMediaSource) :
  _build_artist artist b = Ok n ->
  built "artist" artist n
  /\ if b then exists cs, children n = Some cs
                /\ children_media_class n = Some "album"
                /\ Forall (fun c => media_class c = "album" /\ summary c
                                    /\ domain c = DOMAIN /\ is_Some (identifier c)) cs
     else summary n.
Proof.
  unfold _build_artist. intros H.
  destruct (getitem ITEM_KEY_ID (Id artist)) as [artist_id|] eqn:Hid;
    cbn [bind] in H; [|discriminate].
  apply getitem_Ok in Hid. inv_bind; subst n; unfold built, summary; cbn;
    rewrite Hid; (split; [eauto 6|]); [|auto].
  match goal with H : _build_albums _ = Ok ?cs |- _ =>
    exists cs; unfold _build_albums in H; inv_bind end.
  repeat split.
  match goal with H : mapM _ _ = Ok _ |- _ => refine (mapM_Forall _ _ _ _ _ H) end.
  intros t c Hc. apply (_build_album_built t false) in Hc. unfold built, summary in *. cbn beta. tauto.
Qed.

Lemma _build_library_built (library : RemoteItem) (b : bool) (n : BrowseMediaSource) :
  _build_library library b = Ok n ->
  built "directory" library n
  /\ if b then exists cs, children n = Some cs
                /\ children_media_class n = Some "artist"
                /\ Forall (fun c => media_class c = "artist" /\ summary c
                                    /\ domain c = DOMAIN /\ is_Some (identifier c)) cs
     else summary n.
Proof.
  unfold _build_library, _build_music_library. intros H.
  destruct (getitem ITEM_KEY_COLLECTION_TYPE (CollectionType library));
    cbn [bind] in H; [|discriminate].
  destruct (String.eqb a COLLECTION_TYPE_MUSIC); [|discriminate].
  destruct (getitem ITEM_KEY_ID (Id library)) as [library_id|] eqn:Hid;
    cbn [bind] in H; [|discriminate].
  apply getitem_Ok in Hid. inv_bind; subst n; unfold built, summary; cbn;
    rewrite Hid; (split; [eauto 6|]); [|auto].
  match goal with H : _build_artists _ = Ok ?cs |- _ =>
    exists cs; unfold _build_artists in H; inv_bind end.
  repeat split.
  match goal with H : mapM _ _ = Ok _ |- _ => refine (mapM_Forall _ _ _ _ _ H) end.
  intros t c Hc. apply (_build_artist_built t false) in Hc. unfold built, summary in *. cbn beta. tauto.
Qed.

(** X10.  A browse call expands exactly one level: the node returned has a list
    of children and announces their classification (directories below the
    root, artists below a library, albums below an artist, tracks below an
    album); every child has that classification and is built without
    children of its own. *)
Theorem browse_expands_one_level (item : MediaSourceItem.t)
    (media_types : list string) (node : BrowseMediaSource) :
  async_browse_media item media_types = Ok node ->
  exists cs,
    children node = Some cs
    /\ children_media_class node = Some (child_class node)
    /\ Forall (fun c => media_class c = child_class node /\ summary c) cs.
Proof.
  unfold async_browse_media. intros H.
  destruct (falsy (MediaSourceItem.identifier item)).
  - unfold _build_libraries in H. inv_bind. subst node. cbn.
    eexists. split; [reflexivity|]. split; [reflexivity|].
    match goal with H : mapM _ _ = Ok _ |- _ => refine (mapM_Forall _ _ _ _ _ H) end.
    intros l c Hc. apply (_build_library_built l false) in Hc.
    unfold built, summary in *. cbn beta. tauto.
  - inv_bind.
    + apply (_build_library_built _ true) in H.
      destruct H as ((_ & _ & [id Hid] & Hclass) & cs & Hcs & Hcmc & Hall).
      exists cs. unfold child_class. rewrite Hid, Hclass. cbn.
      repeat split; try assumption.
      eapply List.Forall_impl; [|exact Hall]. cbn. tauto.
    + apply (_build_artist_built _ true) in H.
      destruct H as ((_ & _ & [id Hid] & Hclass) & cs & Hcs & Hcmc & Hall).
      exists cs. unfold child_class. rewrite Hid, Hclass. cbn.
      repeat split; try assumption.
      eapply List.Forall_impl; [|exact Hall]. cbn. tauto.
    + apply (_build_album_built _ true) in H.
      destruct H as ((_ & _ & [id Hid] & Hclass) & cs & Hcs & Hcmc & Hall).
      exists cs. unfold child_class. rewrite Hid, Hclass. cbn.
      repeat split; try assumption.
      eapply List.Forall_impl; [|exact Hall]. cbn. tauto.
Qed.

(** X11.  Every node a browse call returns is in the domain "jellyfin".  The node
    of a browse by identifier carries the Id of the item the server
    returned, and every child carries an identifier, so that it can be
    browsed or resolved in turn. *)
Theorem browse_nodes_identified (item : MediaSourceItem.t)
    (media_types : list string) (node : BrowseMediaSource) :
  async_browse_media item media_types = Ok node ->
  domain node = "jellyfin"
  /\ (falsy (MediaSourceItem.identifier item) = false ->
      exists media_item item_id,
        get_item (api self) (MediaSourceItem.identifier item) = Ok media_item
        /\ Id media_item = Some item_id
        /\ identifier node = Some item_id)
  /\ forall cs, children node = Some cs ->
       Forall (fun c => domain c = "jellyfin" /\ is_Some (identifier c)) cs.
Proof.
  unfold async_browse_media. intros H.
  destruct (falsy (MediaSourceItem.identifier item)).
  - unfold _build_libraries in H. inv_bind. subst node. cbn.
    split; [reflexivity|]. split; [discriminate|].
    intros cs [= <-].
    match goal with H : mapM _ _ = Ok _ |- _ => refine (mapM_Forall _ _ _ _ _ H) end.
    intros l c Hc. apply (_build_library_built l false) in Hc.
    unfold built, summary in *. cbn beta. tauto.
  - destruct (get_item (api self) (MediaSourceItem.identifier item))
      as [media_item|] eqn:Hget; cbn [bind] in H; [|discriminate].
    assert (Hshape : exists class,
               built class media_item node
               /\ exists cs, children node = Some cs
                    /\ Forall (fun c => domain c = DOMAIN /\ is_Some (identifier c)) cs).
    { inv_bind.
      - apply (_build_library_built _ true) in H.
        destruct H as (Hb & cs & Hcs & _ & Hall). eexists. split; [exact Hb|].
        exists cs. split; [exact Hcs|].
        eapply List.Forall_impl; [|exact Hall]. cbn. tauto.
      - apply (_build_artist_built _ true) in H.
        destruct H as (Hb & cs & Hcs & _ & Hall). eexists. split; [exact Hb|].
        exists cs. split; [exact Hcs|].
        eapply List.Forall_impl; [|exact Hall]. cbn. tauto.
      - apply (_build_album_built _ true) in H.
        destruct H as (Hb & cs & Hcs & _ & Hall). eexists. split; [exact Hb|].
        exists cs. split; [exact Hcs|].
        eapply List.Forall_impl; [|exact Hall]. cbn. tauto. }
    destruct Hshape as (class & (Hdom & Hident & [id Hid] & _) & cs & Hcs & Hall).
    split; [exact Hdom|]. split.
    + intros _. exists media_item, id. rewrite <- Hident. auto.
    + intros cs' Hcs'. rewrite Hcs in Hcs'. now injection Hcs' as <-.
Qed.

(** *** Ties keep the order of the listing *)

Section SortedStable.
Context {A K : Type}.
Variable leb : K -> K -> bool.
(** [same] selects keys that are not above one another: equal keys. *)
Variable same : K -> bool.
Hypothesis same_leb : forall a b, same a = true -> same b = true -> leb a b = true.

Lemma insert_by_filter (x : K * A) (l : list (K * A)) :
  List.filter (fun p => same (fst p)) (insert_by leb x l)
  = List.filter (fun p => same (fst p)) (x :: l).
Proof.
  induction l as [|y l IH]; [reflexivity|].
  cbn [insert_by]. destruct (leb (fst x) (fst y)) eqn:Hxy; [reflexivity|].
  cbn [List.filter] in *. rewrite IH.
  destruct (same (fst x)) eqn:Hx, (same (fst y)) eqn:Hy; try reflexivity.
  rewrite (same_leb _ _ Hx Hy) in Hxy. discriminate.
Qed.

Lemma sort_by_filter (l : list (K * A)) :
  List.filter (fun p => same (fst p)) (sort_by leb l)
  = List.filter (fun p => same (fst p)) l.
Proof.
  induction l as [|x l IH]; [reflexivity|].
  cbn [sort_by]. rewrite insert_by_filter. cbn [List.filter]. now rewrite IH.
Qed.

Lemma filter_undecorate (k : A -> K) (l : list (K * A)) :
  Forall (fun p => fst p = k (snd p)) l ->
  List.filter (fun x => same (k x)) (map snd l)
  = map snd (List.filter (fun p => same (fst p)) l).
Proof.
  induction 1 as [|p l Hp _ IH]; [reflexivity|].
  cbn [map List.filter]. rewrite <- Hp, IH. now destruct (same (fst p)).
Qed.

(** Among the elements with one key, [sorted] keeps the order they came
    in. *)
Lemma sorted_stable (key : A -> result K) (k : A -> K) (xs ys : list A) :
  Forall (fun x => key x = Ok (k x)) xs ->
  sorted leb key xs = Ok ys ->
  List.filter (fun x => same (k x)) ys = List.filter (fun x => same (k x)) xs.
Proof.
  intros Hkey. unfold sorted.
  rewrite (mapM_total _ (fun x => (k x, x))).
  2:{ eapply List.Forall_impl; [|exact Hkey]. simpl. now intros x ->. }
  cbn [bind]. intros [= <-].
  rewrite (filter_undecorate k).
  2:{ rewrite <- sort_by_Permutation. apply List.Forall_forall.
      intros p Hp. apply List.in_map_iff in Hp. now destruct Hp as (x & <- & _). }
  rewrite sort_by_filter, <- (filter_undecorate k).
  2:{ apply List.Forall_forall.
      intros p Hp. apply List.in_map_iff in Hp. now destruct Hp as (x & <- & _). }
  now rewrite map_map, map_id.
Qed.

End SortedStable.

(** X9.  Tracks with the same index number, as on the discs of a set, are listed
    in the order the server returned them. *)
Theorem browse_album_tracks_keep_ties (item : MediaSourceItem.t)
    (media_types : list string) (album : RemoteItem)
    (album_id album_title api_key : string) (tracks : list RemoteItem) :
  falsy (MediaSourceItem.identifier item) = false ->
  get_item (api self) (MediaSourceItem.identifier item) = Ok album ->
  Type_ album = Some ITEM_TYPE_ALBUM ->
  ITEM_TYPE_ALBUM <> ITEM_TYPE_LIBRARY ->
  ITEM_TYPE_ALBUM <> ITEM_TYPE_ARTIST ->
  Id album = Some album_id ->
  Name album = Some album_title ->
  is_Some (ImageTags album) ->
  user_items (api self) "" (_get_children_params album_id ITEM_TYPE_AUDIO)
    = Ok {| Items := Some tracks |} ->
  Forall playable_track tracks ->
  config_data (client self) !! "auth.token" = Some api_key ->
  exists node cs sorted_tracks,
    async_browse_media item media_types = Ok node
    /\ children node = Some cs
    /\ Forall2 node_of sorted_tracks cs
    /\ forall i, List.filter (index_is i) sorted_tracks
                 = List.filter (index_is i) tracks.
Proof.
  intros Hid Hget Hty Hnl Hna Haid Hname [tags Htags] Hitems Hplay Hkey.
  unfold async_browse_media. rewrite Hid, Hget. cbn [bind].
  rewrite Hty. cbn [bind getitem].
  apply String.eqb_neq in Hnl, Hna. rewrite Hnl, Hna, String.eqb_refl.
  unfold _build_album.
  rewrite (_get_thumbnail_url_Ok _ _ _ _ Haid Htags Hkey), Haid, Hname.
  cbn [bind getitem]. unfold _build_tracks.
  rewrite (_get_children_Ok _ _ _ Hitems). cbn [bind].
  assert (Hleb : forall a b : Z, Z.leb a b = true \/ Z.leb b a = true).
  { intros a b. rewrite !Z.leb_le. lia. }
  assert (Hkeys : Forall (fun x => getitem ITEM_KEY_INDEX_NUMBER (IndexNumber x)
                                   = Ok (default 0%Z (IndexNumber x))) tracks).
  { eapply List.Forall_impl; [|exact Hplay].
    intros t (_ & [i Hi] & _). now rewrite Hi. }
  destruct (sorted_Ok Z.leb Hleb _ _ tracks Hkeys) as (ys & Hsort & Hperm & _).
  rewrite Hsort. cbn [bind].
  assert (Hplay' : Forall playable_track ys) by now rewrite <- Hperm.
  destruct (mapM_Forall2_total _build_track node_of ys) as (cs & -> & Hcs).
  { eapply List.Forall_impl; [|exact Hplay'].
    intros t Ht. destruct (_build_track_Ok t api_key Ht Hkey) as (n & Hn & Hof & _).
    eauto. }
  cbn [bind]. eexists _, cs, ys. split; [reflexivity|].
  split; [reflexivity|]. split; [exact Hcs|].
  intros i.
  assert (Hsame : forall l, Forall playable_track l ->
            List.filter (index_is i) l
            = List.filter (fun x => Z.eqb i (default 0%Z (IndexNumber x))) l).
  { intros l Hl. apply List.filter_ext_in. intros t Ht.
    eapply List.Forall_forall in Hl; [|exact Ht].
    destruct Hl as (_ & [j Hj] & _). unfold index_is. now rewrite Hj. }
  rewrite (Hsame _ Hplay'), (Hsame _ Hplay).
  apply (sorted_stable Z.leb (Z.eqb i) ) with (key := fun x => getitem ITEM_KEY_INDEX_NUMBER (IndexNumber x));
    [|exact Hkeys|exact Hsort].
  intros a b Ha Hb. apply Z.eqb_eq in Ha, Hb. subst. apply Z.leb_refl.
Qed.

(** X5.  Browsing a library whose item has no CollectionType, as a folder of
    mixed content, raises [KeyError] and not [UnsupportedCollectionType]. *)
Theorem browse_library_without_collection_type (item : MediaSourceItem.t)
    (media_types : list string) (library : RemoteItem) :
  falsy (MediaSourceItem.identifier item) = false ->
  get_item (api self) (MediaSourceItem.identifier item) = Ok library ->
  Type_ library = Some ITEM_TYPE_LIBRARY ->
  CollectionType library = None ->
  async_browse_media item media_types = Err (KeyError "CollectionType")
  /\ forall collection_type,
       async_browse_media item media_types
       <> Err (UnsupportedCollectionType collection_type).
Proof.
  intros Hid Hget Hty Hct.
  assert (H : async_browse_media item media_types = Err (KeyError "CollectionType")).
  { unfold async_browse_media. rewrite Hid, Hget. cbn [bind]. rewrite Hty.
    cbn [bind getitem]. rewrite String.eqb_refl.
    unfold _build_library. now rewrite Hct. }
  split; [exact H|]. intros ct. rewrite H. discriminate.
Qed.

End MediaSource.

(** ** The extension ".mp3" *)







(** * The code on the example server

    The item type tags are instantiated with those of the Jellyfin API, the
    empty content type with the empty string. *)

Notation "'example_browse'" :=
  (async_browse_media "CollectionFolder" "MusicArtist" "MusicAlbum" "Audio" ""
     example_guess_type) (only parsing).
Notation "'example_resolve'" := (async_resolve_media example_guess_type) (only parsing).

(** Elements with equal keys keep their order. *)
Example sort_by_stable :
  sort_by Z.leb [(2, "b"); (1, "x"); (2, "a"); (1, "y")]%Z
  = [(1, "x"); (1, "y"); (2, "b"); (2, "a")]%Z.
Proof. reflexivity. Qed.

(** C1.  The root listing on a server whose only media folder is a music
    library: the filter of [_get_libraries] keeps the collection types of
    [SUPPORTED_COLLECTION_TYPES], "movies" and "tvshows", so the music
    library is dropped and the root node comes back without children; with a
    movies folder next to it the whole call raises
    [UnsupportedCollectionType]. *)
Theorem root_browse_omits_music_library :
  CollectionType music_library = Some "music"
  /\ example_browse (example_source [music_library]) root_request []
     = Ok {| domain := "jellyfin";
             identifier := None;
             media_class := "directory";
             media_content_type := "";
             title := "Jellyfin";
             can_play := false;
             can_expand := true;
             children_media_class := Some "directory";
             thumbnail := None;
             children := Some [] |}
  /\ example_browse (example_source [music_library; movie_library]) root_request []
     = Err (UnsupportedCollectionType "movies").
Proof. repeat split. Qed.

(** An audio item with an empty media-sources list: resolving it raises
    [IndexError], which is no [MimeTypeUndetermined]. *)
Lemma empty_media_sources_not_MimeTypeUndetermined :
  MediaSources example_no_sources = Some []
  /\ example_get_item (Some "tr-9") = Ok example_no_sources
  /\ _media_mime_type example_guess_type example_no_sources = Err IndexError
  /\ example_resolve (example_source []) (request "tr-9") = Err IndexError
  /\ ~ exists path,
         example_resolve (example_source []) (request "tr-9")
         = Err (MimeTypeUndetermined path).
Proof.
  repeat split. intros [path H]. vm_compute in H. discriminate H.
Qed.

(** The same item, through the general statement. *)
Lemma empty_media_sources_witness :
  _media_mime_type example_guess_type example_no_sources = Err IndexError
  /\ example_resolve (example_source []) (request "tr-9") = Err IndexError.
Proof.
  destruct (empty_media_sources_raise_IndexError example_guess_type (example_source [])
              example_no_sources eq_refl) as [Hmime Hresolve].
  split; [exact Hmime|]. exact (Hresolve (request "tr-9") eq_refl).
Defined.

(** Resolving a video. *)
Lemma resolve_unsupported_media_type_witness :
  example_resolve (example_source []) (request "mv-1")
  = Err (BrowseError "Unsupported media type Video").
Proof.
  apply (resolve_unsupported_media_type example_guess_type (example_source [])
           (request "mv-1") example_video "Video");
    [reflexivity | reflexivity | discriminate].
Defined.

(** Browsing the movies folder. *)
Lemma browse_unsupported_collection_type_witness :
  example_browse (example_source []) (request "lib-movies") []
  = Err (BrowseError "Unsupported collection type movies").
Proof.
  apply (browse_unsupported_collection_type "CollectionFolder" "MusicArtist"
           "MusicAlbum" "Audio" "" example_guess_type (example_source [])
           (request "lib-movies") [] movie_library "movies");
    [reflexivity | reflexivity | reflexivity | reflexivity | discriminate].
Defined.

(** The music folder has a "Primary" image tag, and its node no thumbnail. *)
Lemma library_node_without_thumbnail :
  exists (node : BrowseMediaSource) (tags : gmap string string),
    example_get_item (Some "lib-music") = Ok music_library
    /\ ImageTags music_library = Some tags
    /\ tags !! "Primary" = Some "f00d"
    /\ example_browse (example_source []) (request "lib-music") [] = Ok node
    /\ thumbnail node = None
    /\ ~ (is_Some (thumbnail node) <-> is_Some (tags !! "Primary")).
Proof.
  eexists _, _. split; [reflexivity|]. split; [reflexivity|].
  split; [reflexivity|]. split; [vm_compute; reflexivity|].
  split; [reflexivity|]. simpl. intros [_ H].
  destruct H as [? [=]]. now eexists.
Qed.

(** The thumbnail of the example album. *)
Lemma thumbnail_iff_primary_tag_witness :
  exists thumb : option string,
    _get_thumbnail_url (example_source []) example_album = Ok thumb
    /\ (is_Some thumb <-> is_Some (({[ "Primary" := "c0de" ]} : gmap string string) !! "Primary"))
    /\ thumb = Some "http://jf.local:8096/Items/al-1/Images/Primary?Tag=c0de&api_key=s3cr3t".
Proof.
  destruct (thumbnail_iff_primary_tag "MusicArtist" "MusicAlbum" "Audio" ""
              example_guess_type (example_source []) example_album "al-1" "s3cr3t"
              {[ "Primary" := "c0de" ]} eq_refl eq_refl eq_refl)
    as (thumb & Hurl & Hiff & Htag & _).
  exists thumb. split; [exact Hurl|]. split; [exact Hiff|].
  exact (Htag "c0de" eq_refl).
Defined.

(** The three artists of the music folder. *)
Lemma browse_music_library_artists_witness :
  exists node cs sorted_artists,
    example_browse (example_source [music_library]) (request "lib-music") [] = Ok node
    /\ children node = Some cs
    /\ length cs = 3
    /\ Forall (fun c => media_class c = "artist") cs
    /\ StronglySorted title_le cs
    /\ Permutation example_artists sorted_artists
    /\ Forall2 node_of sorted_artists cs.
Proof.
  apply (browse_music_library_artists "CollectionFolder" "MusicArtist" "MusicAlbum"
           "Audio" "" example_guess_type (example_source [music_library])
           (request "lib-music") [] music_library "lib-music" "Music" "s3cr3t"
           example_artists);
    try reflexivity.
  repeat constructor; eexists; reflexivity.
Defined.

(** The three tracks of the example album. *)
Lemma browse_album_tracks_witness :
  exists node cs sorted_tracks,
    example_browse (example_source []) (request "al-1") [] = Ok node
    /\ children node = Some cs
    /\ length cs = 3
    /\ Forall (fun c => can_play c = true /\ can_expand c = false) cs
    /\ Permutation example_tracks sorted_tracks
    /\ StronglySorted index_le sorted_tracks
    /\ Forall2 node_of sorted_tracks cs.
Proof.
  apply (browse_album_tracks "CollectionFolder" "MusicArtist" "MusicAlbum" "Audio" ""
           example_guess_type (example_source []) (request "al-1") [] example_album
           "al-1" "Pastel Blues" "s3cr3t" example_tracks);
    try reflexivity; try discriminate.
  - eexists; reflexivity.
  - repeat apply List.Forall_cons; try apply List.Forall_nil;
      (split; [repeat split; eexists; reflexivity|]);
      (split; [eexists; reflexivity|]);
      do 4 eexists; repeat split; reflexivity.
Defined.

(** The album node and its track nodes. *)
Lemma browse_nodes_playable_xor_expandable_witness :
  exists node,
    example_browse (example_source []) (request "al-1") [] = Ok node
    /\ tree_forall node_ok node = true
    /\ (falsy (MediaSourceItem.identifier (request "al-1")) = true ->
        identifier node = None /\ can_play node = false).
Proof.
  eexists. split; [vm_compute; reflexivity|].
  apply (browse_nodes_playable_xor_expandable "CollectionFolder" "MusicArtist"
           "MusicAlbum" "Audio" "" example_guess_type (example_source [])
           (request "al-1") []).
  vm_compute. reflexivity.
Defined.

(** * The further properties on the example servers *)

Lemma resolve_Ok_audio_witness :
  exists media_item item_id user_id device_id api_key source rest path,
    example_get_item (Some "tr-1") = Ok media_item
    /\ MediaType media_item = Some "Audio"
    /\ Id media_item = Some item_id
    /\ config_data (client (example_source [])) !! "auth.user_id" = Some user_id
    /\ config_data (client (example_source [])) !! "app.device_id" = Some device_id
    /\ config_data (client (example_source [])) !! "auth.token" = Some api_key
    /\ MediaSources media_item = Some (source :: rest)
    /\ Path source = Some path
    /\ example_guess_type path = Some "audio/mpeg"
    /\ "http://jf.local:8096/Audio/tr-1/universal?UserId=u-7&DeviceId=d-42&api_key=s3cr3t&MaxStreamingBitrate=140000000"
       = url (example_source []) ++ "Audio/" ++ item_id ++ "/universal?UserId=" ++ user_id
           ++ "&DeviceId=" ++ device_id ++ "&api_key=" ++ api_key
           ++ "&MaxStreamingBitrate=140000000".
Proof.
  apply (resolve_Ok_audio example_guess_type (example_source []) (request "tr-1")
           {| PlayMedia.url :=
                "http://jf.local:8096/Audio/tr-1/universal?UserId=u-7&DeviceId=d-42&api_key=s3cr3t&MaxStreamingBitrate=140000000";
              PlayMedia.mime_type := "audio/mpeg" |}).
  reflexivity.
Defined.

Lemma resolve_mime_undetermined_witness :
  example_resolve second_source (request "tr-32")
  = Err (BrowseError "Unable to determine mime type for path /music/demo/02.xyz").
Proof.
  apply (resolve_mime_undetermined example_guess_type second_source (request "tr-32")
           odd_track {| Path := Some "/music/demo/02.xyz" |} [] "/music/demo/02.xyz"
           "tr-32" "u-7" "d-42" "s3cr3t");
    reflexivity.
Defined.

Lemma track_content_type_resolves_witness :
  exists play,
    example_resolve (example_source []) (request "tr-1") = Ok play
    /\ PlayMedia.mime_type play = "audio/mpeg".
Proof.
  apply (track_content_type_resolves example_guess_type (example_source [])
           example_track
           {| domain := "jellyfin"; identifier := Some "tr-1"; media_class := "track";
              media_content_type := "audio/mpeg"; title := "Be My Husband";
              can_play := true; can_expand := false; children_media_class := None;
              thumbnail := None; children := None |}
           (request "tr-1") "u-7" "d-42");
    reflexivity.
Defined.

Lemma thumbnail_KeyError_witness :
  _get_thumbnail_url second_source untagged_album = Err (KeyError "ImageTags")
  /\ _build_album "Audio" "" example_guess_type second_source untagged_album true
     = Err (KeyError "ImageTags").
Proof.
  destruct (thumbnail_KeyError "MusicAlbum" "Audio" "" example_guess_type second_source
              untagged_album "al-0" "Bootleg" eq_refl eq_refl) as [Htags _].
  destruct (Htags eq_refl) as [Hurl Hbuild].
  split; [exact Hurl|]. exact (proj2 (Hbuild true)).
Defined.

Lemma async_get_media_source_no_entry_witness :
  async_get_media_source example_jellyfin_url unconfigured_hass = Err IndexError.
Proof.
  apply (async_get_media_source_no_entry example_jellyfin_url unconfigured_hass).
  reflexivity.
Defined.

Lemma async_get_media_source_first_entry_witness :
  exists source,
    async_get_media_source example_jellyfin_url example_hass = Ok source
    /\ client source = example_client
    /\ api source = jellyfin example_client
    /\ url source = "http://jf.local:8096/".
Proof.
  apply (async_get_media_source_first_entry example_jellyfin_url example_hass
           {| entry_id := "e-1" |} [ {| entry_id := "e-2" |} ]
           {[ "e-1" := {[ "client" := example_client ]} ]}
           {[ "client" := example_client ]} example_client);
    reflexivity.
Defined.

Lemma browse_unsupported_item_type_witness :
  example_browse (example_source []) (request "tr-1") []
  = Err (BrowseError "Unsupported item type Audio").
Proof.
  apply (browse_unsupported_item_type "CollectionFolder" "MusicArtist" "MusicAlbum"
           "Audio" "" example_guess_type (example_source []) (request "tr-1") []
           example_track "Audio");
    reflexivity || discriminate.
Defined.

Lemma browse_artist_albums_witness :
  exists node cs sorted_albums,
    example_browse second_source (request "ar-2") [] = Ok node
    /\ identifier node = Some "ar-2"
    /\ title node = "Nina Simone"
    /\ media_class node = "artist"
    /\ children node = Some cs
    /\ length cs = 2
    /\ Forall (fun c => media_class c = "album" /\ summary c) cs
    /\ StronglySorted title_le cs
    /\ Permutation nina_simone_albums sorted_albums
    /\ Forall2 node_of sorted_albums cs.
Proof.
  apply (browse_artist_albums "CollectionFolder" "MusicArtist" "MusicAlbum" "Audio" ""
           example_guess_type second_source (request "ar-2") [] nina_simone
           "ar-2" "Nina Simone" "s3cr3t" nina_simone_albums);
    try reflexivity; try discriminate.
  - eexists; reflexivity.
  - repeat apply List.Forall_cons; try apply List.Forall_nil;
      repeat split; eexists; reflexivity.
Defined.

Lemma browse_album_track_without_index_witness :
  example_browse second_source (request "al-2") [] = Err (KeyError "IndexNumber").
Proof.
  apply (browse_album_track_without_index "CollectionFolder" "MusicArtist"
           "MusicAlbum" "Audio" "" example_guess_type second_source (request "al-2") []
           (item "al-2" "Live" "MusicAlbum") "al-2" "Live" "s3cr3t" unnumbered_tracks);
    try reflexivity; try discriminate.
  - eexists; reflexivity.
  - apply List.Exists_cons_tl, List.Exists_cons_hd. reflexivity.
Defined.

Lemma browse_library_artist_without_name_witness :
  example_browse second_source (request "lib-2") [] = Err (KeyError "Name").
Proof.
  apply (browse_library_artist_without_name "CollectionFolder" "MusicArtist"
           "MusicAlbum" "Audio" "" example_guess_type second_source (request "lib-2") []
           (folder "lib-2" "More Music" "music" ∅) "lib-2" "More Music"
           [ nina_simone; unnamed_artist ]);
    try reflexivity.
  apply List.Exists_cons_tl, List.Exists_cons_hd. reflexivity.
Defined.

Lemma browse_album_track_without_mime_type_witness :
  exists track path,
    In track odd_tracks
    /\ first_path track = Some path
    /\ example_guess_type path = None
    /\ example_browse second_source (request "al-3") []
       = Err (MimeTypeUndetermined path).
Proof.
  apply (browse_album_track_without_mime_type "CollectionFolder" "MusicArtist"
           "MusicAlbum" "Audio" "" example_guess_type second_source (request "al-3") []
           (item "al-3" "Demos" "MusicAlbum") "al-3" "Demos" "s3cr3t" odd_tracks);
    try reflexivity; try discriminate.
  - eexists; reflexivity.
  - repeat apply List.Forall_cons; try apply List.Forall_nil;
      (split; [repeat split; eexists; reflexivity|]);
      (split; [eexists; reflexivity|]);
      do 3 eexists; split; reflexivity.
  - apply List.Exists_cons_tl, List.Exists_cons_hd.
    exists "/music/demo/02.xyz". split; reflexivity.
Defined.

Lemma _get_libraries_filter_witness :
  exists libraries,
    _get_libraries (example_source [music_library; movie_library]) = Ok libraries
    /\ sublist libraries [music_library; movie_library]
    /\ forall library,
         In library libraries <->
         In library [music_library; movie_library]
         /\ exists collection_type,
              CollectionType library = Some collection_type
              /\ (collection_type = "movies" \/ collection_type = "tvshows").
Proof.
  apply (_get_libraries_filter (example_source [music_library; movie_library])
           [music_library; movie_library]).
  reflexivity.
Defined.

Lemma root_browse_by_folders_witness :
  example_browse (example_source [music_library]) root_request [] = Ok (empty_root "")
  /\ example_browse (example_source [music_library; movie_library]) (request "") []
     = Err (UnsupportedCollectionType "movies").
Proof.
  split.
  - apply (root_browse_by_folders "CollectionFolder" "MusicArtist" "MusicAlbum" "Audio"
             "" example_guess_type (example_source [music_library]) root_request []
             [music_library] eq_refl eq_refl).
    repeat constructor.
  - apply (proj2 (root_browse_by_folders "CollectionFolder" "MusicArtist" "MusicAlbum"
             "Audio" "" example_guess_type
             (example_source [music_library; movie_library]) (request "") []
             [music_library; movie_library] eq_refl eq_refl)
             [music_library] movie_library [] "movies");
      [reflexivity | repeat constructor | reflexivity | now left].
Defined.

Lemma browse_expands_one_level_witness :
  exists node,
    example_browse (example_source []) (request "lib-music") [] = Ok node
    /\ exists cs,
         children node = Some cs
         /\ children_media_class node = Some (child_class node)
         /\ Forall (fun c => media_class c = child_class node /\ summary c) cs.
Proof.
  eexists. split; [vm_compute; reflexivity|].
  apply (browse_expands_one_level "CollectionFolder" "MusicArtist" "MusicAlbum"
           "Audio" "" example_guess_type (example_source [])
           (request "lib-music") []).
  vm_compute. reflexivity.
Defined.

Lemma browse_nodes_identified_witness :
  exists node,
    example_browse (example_source []) (request "al-1") [] = Ok node
    /\ domain node = "jellyfin"
    /\ (falsy (MediaSourceItem.identifier (request "al-1")) = false ->
        exists media_item item_id,
          example_get_item (Some "al-1") = Ok media_item
          /\ Id media_item = Some item_id
          /\ identifier node = Some item_id)
    /\ forall cs, children node = Some cs ->
         Forall (fun c => domain c = "jellyfin" /\ is_Some (identifier c)) cs.
Proof.
  eexists. split; [vm_compute; reflexivity|].
  apply (browse_nodes_identified "CollectionFolder" "MusicArtist" "MusicAlbum"
           "Audio" "" example_guess_type (example_source [])
           (request "al-1") []).
  vm_compute. reflexivity.
Defined.

Lemma browse_album_tracks_keep_ties_witness :
  exists node cs sorted_tracks,
    example_browse second_source (request "al-4") [] = Ok node
    /\ children node = Some cs
    /\ Forall2 node_of sorted_tracks cs
    /\ forall i, List.filter (index_is i) sorted_tracks
                 = List.filter (index_is i) two_disc_tracks.
Proof.
  apply (browse_album_tracks_keep_ties "CollectionFolder" "MusicArtist" "MusicAlbum"
           "Audio" "" example_guess_type second_source (request "al-4") []
           (item "al-4" "The Set" "MusicAlbum") "al-4" "The Set" "s3cr3t"
           two_disc_tracks);
    try reflexivity; try discriminate.
  - eexists; reflexivity.
  - repeat apply List.Forall_cons; try apply List.Forall_nil;
      (split; [repeat split; eexists; reflexivity|]);
      (split; [eexists; reflexivity|]);
      do 4 eexists; repeat split; reflexivity.
Defined.

(** The two discs of the set, as listed: ties in server order. *)
Example two_disc_listing :
  option_map (map title)
    (match example_browse second_source (request "al-4") [] with
     | Ok node => children node
     | Err _ => None
     end)
  = Some ["Disc 1, first"; "Disc 2, first"; "Disc 1, second"; "Disc 2, second"].
Proof. reflexivity. Qed.

Lemma browse_library_without_collection_type_witness :
  example_browse second_source (request "lib-3") [] = Err (KeyError "CollectionType").
Proof.
  apply (browse_library_without_collection_type "CollectionFolder" "MusicArtist"
           "MusicAlbum" "Audio" "" example_guess_type second_source (request "lib-3") []
           (item "lib-3" "Mixed" "CollectionFolder"));
    reflexivity.
Defined.

(** * The revised statements on the example servers *)



(** An album of two tracks, one without an index number: browsing it raises
    [KeyError] and returns no node. *)
Lemma album_with_unnumbered_track_fails :
  get_item (api second_source) (Some "al-2") = Ok (item "al-2" "Live" "MusicAlbum")
  /\ user_items (api second_source) ""
       (_get_children_params "Audio" "al-2" "Audio")
     = Ok {| Items := Some unnumbered_tracks |}
  /\ length unnumbered_tracks = 2
  /\ example_browse second_source (request "al-2") [] = Err (KeyError "IndexNumber")
  /\ ~ exists node, example_browse second_source (request "al-2") [] = Ok node.
Proof.
  repeat split. intros [node H]. vm_compute in H. discriminate H.
Qed.

(** The split and the guess on some paths. *)
Example posixpath_splitext_examples :
  map posixpath_splitext
    ["/music/pastel/01.mp3"; "/music/.mp3"; "..mp3"; "a..mp3"; "/a.b/c"; "x.tar.gz"]
  = [("/music/pastel/01", ".mp3"); ("/music/.mp3", ""); ("..mp3", "");
     ("a.", ".mp3"); ("/a.b/c", ""); ("x.tar", ".gz")].
Proof. reflexivity. Qed.

Example mimetypes_guess_type_examples :
  map (mimetypes_guess_type example_types_map)
    ["/m/a.mp3"; "a.MP3"; "/music/.mp3"; "a.xyz"; "x.tgz"; "a.mp3.gz";
     "http://h/a.mp3"; "data:audio/ogg;base64,AAA"; "data:,x.mp3"; "data:x.mp3"]
  = [Some "audio/mpeg"; Some "audio/mpeg"; None; None; Some "application/x-tar";
     Some "audio/mpeg"; Some "audio/mpeg"; Some "audio/ogg"; Some "text/plain"; None].
Proof. vm_compute. reflexivity. Qed.
